(** * Tilt timer: orientation-triggered countdown with a looping alarm

    A shallow embedding of [Tilt-Timer_code.c] (an Arduino sketch for the
    Feather ESP32) and the properties of its control loop: the orientation
    classifier [detectFace], the debounced return to the menu, the
    one-second countdown and the alarm sequencer (LED blink and melody).

    Conventions of the embedding.
    - [float] values are IEEE 754 binary32 values, as [spec_float]; the
      comparisons are those of [SFcompare], so every comparison with a NaN
      is false, as in C.
    - [int] variables are mathematical integers; the sketch never drives
      them out of the [int] range.
    - [unsigned long] values are integers reduced by [ulong]; for the
      board this is reduction modulo 2^32.
    - The sketch's globals and the board's outputs are the fields of one
      record, [World], threaded through the functions.  [clock] is the
      number of milliseconds since power-up, never reduced; the sketch
      only sees it through [millis].
    - Within one iteration of [loop] the reads of [millis] are a few
      instructions apart and precede the iteration's display traffic: they
      return the same value.  The time an iteration takes besides its
      [delay(50)] is given with its input, as [lag].
    - Calls to the display, the LED and the piezo are recorded in [trace],
      newest first, each with the value of [clock] when it was issued. *)

From Stdlib Require Import ZArith List Bool Lia Ascii.
From Stdlib Require Import Floats.SpecFloat.
Import ListNotations.

Local Open Scope Z_scope.

(** ** binary32 values and their comparisons *)

Module F32.

Definition prec : Z := 24.
Definition emax : Z := 128.

(** The binary32 value nearest to [m * 2^e]. *)
Definition of_dyadic (m e : Z) : spec_float :=
  binary_normalize prec emax m e false.

(** The value of the integer literal [0] converted to [float]. *)
Definition zero : spec_float := S754_zero false.

Definition fabsf (x : spec_float) : spec_float := SFabs x.

(** [a >= b] *)
Definition ge (a b : spec_float) : bool :=
  match SFcompare a b with
  | Some Gt | Some Eq => true
  | _ => false
  end.

(** [a <= b] *)
Definition le (a b : spec_float) : bool :=
  match SFcompare a b with
  | Some Lt | Some Eq => true
  | _ => false
  end.

(** [a > b] *)
Definition gt (a b : spec_float) : bool :=
  match SFcompare a b with
  | Some Gt => true
  | _ => false
  end.

(** [a < b] *)
Definition lt (a b : spec_float) : bool :=
  match SFcompare a b with
  | Some Lt => true
  | _ => false
  end.

Definition is_nan (a : spec_float) : bool :=
  match a with
  | S754_nan => true
  | _ => false
  end.

End F32.

(** ** Constants of the sketch *)

(** [#define AXIS_G_MIN 9.0f] and [#define AXIS_G_MAX 11.5f] *)
Definition AXIS_G_MIN : spec_float := F32.of_dyadic 9 0.
Definition AXIS_G_MAX : spec_float := F32.of_dyadic 23 (-1).

Definition COUNT_NEG_Y_SEC : Z := 5.
Definition COUNT_POS_X_SEC : Z := 10.
Definition COUNT_POS_Y_SEC : Z := 15.
Definition COUNT_NEG_X_SEC : Z := 30.

Definition ALARM_TOGGLE_MS : Z := 1000.
Definition AXIS_CHANGE_BUFFER_MS : Z := 500.

Inductive State : Type :=
| STATE_MENU
| STATE_COUNTDOWN
| STATE_ALARM.

Inductive Face : Type :=
| FACE_NONE
| FACE_NEG_Y
| FACE_POS_X
| FACE_POS_Y
| FACE_NEG_X.

Definition Face_eqb (a b : Face) : bool :=
  match a, b with
  | FACE_NONE, FACE_NONE
  | FACE_NEG_Y, FACE_NEG_Y
  | FACE_POS_X, FACE_POS_X
  | FACE_POS_Y, FACE_POS_Y
  | FACE_NEG_X, FACE_NEG_X => true
  | _, _ => false
  end.

(** ** Face detection *)

(** The band test [a >= AXIS_G_MIN && a <= AXIS_G_MAX]. *)
Definition in_band (a : spec_float) : bool :=
  F32.ge a AXIS_G_MIN && F32.le a AXIS_G_MAX.

Definition detectFace (x y z : spec_float) : Face :=
  let ax := F32.fabsf x in
  let ay := F32.fabsf y in
  let az := F32.fabsf z in
  if F32.ge ay ax && F32.ge ay az && F32.ge ay AXIS_G_MIN && F32.le ay AXIS_G_MAX
  then (if F32.gt y F32.zero then FACE_POS_Y else FACE_NEG_Y)
  else if F32.ge ax ay && F32.ge ax az && F32.ge ax AXIS_G_MIN && F32.le ax AXIS_G_MAX
  then (if F32.gt x F32.zero then FACE_POS_X else FACE_NEG_X)
  else if F32.ge az AXIS_G_MIN && F32.le az AXIS_G_MAX
  then FACE_NONE
  else FACE_NONE.

(** ** Alarm melody *)

Definition melody : list Z :=
  [ 659; 587; 370; 415;
    554; 494; 294; 330;
    494; 440; 277; 330;
    440 ].

(** Note durations (ms) *)
Definition noteDurations : list Z :=
  [ 150; 150; 300; 300;
    150; 150; 300; 300;
    150; 150; 300; 300;
    600 ].

(** [sizeof(melody) / sizeof(melody[0])] *)
Definition NUM_NOTES : Z := Z.of_nat (length melody).

(** An array read [a[i]].  A read outside the array is undefined in C;
    here it yields 0, and [note_index_in_bounds] below shows that the
    sketch never performs one. *)
Definition aread (a : list Z) (i : Z) : Z := nth (Z.to_nat i) a 0.

(** ** The board and the sketch's globals *)

(** Calls issued to the outputs: [digitalWrite] on the two pins, [tone] and
    [noTone] on the piezo pin, and the three screens. *)
Inductive Event : Type :=
| EvLed (level : bool)
| EvPiezo (level : bool)
| EvTone (hz : Z)
| EvNoTone
| EvDrawMenu
| EvDrawCountdown (rotation remaining : Z)
| EvDrawAlarm (rotation : Z).

Record World : Type := mkWorld {
  (* the board's millisecond clock, not reduced *)
  clock : Z;
  (* globals of the sketch *)
  currentState : State;
  activeFace : Face;
  countdownTotalSec : Z;
  countdownRemainingSec : Z;
  countdownAxisLabel : ascii;
  lastCountdownTick : Z;
  countdownRotation : Z;
  lastAlarmToggleMs : Z;
  alarmOutputState : bool;
  axisChangePending : bool;
  axisChangeStartMs : Z;
  currentNoteIndex : Z;
  noteStartMs : Z;
  (* outputs *)
  ledPin : bool;
  piezoPin : bool;
  toneHz : Z;               (* 0: no tone is playing *)
  trace : list (Z * Event)
}.

Definition set_clock (v : Z) (w : World) : World :=
  mkWorld v (currentState w) (activeFace w) (countdownTotalSec w)
    (countdownRemainingSec w) (countdownAxisLabel w) (lastCountdownTick w)
    (countdownRotation w) (lastAlarmToggleMs w) (alarmOutputState w)
    (axisChangePending w) (axisChangeStartMs w) (currentNoteIndex w)
    (noteStartMs w) (ledPin w) (piezoPin w) (toneHz w) (trace w).

Definition set_currentState (v : State) (w : World) : World :=
  mkWorld (clock w) v (activeFace w) (countdownTotalSec w)
    (countdownRemainingSec w) (countdownAxisLabel w) (lastCountdownTick w)
    (countdownRotation w) (lastAlarmToggleMs w) (alarmOutputState w)
    (axisChangePending w) (axisChangeStartMs w) (currentNoteIndex w)
    (noteStartMs w) (ledPin w) (piezoPin w) (toneHz w) (trace w).

Definition set_activeFace (v : Face) (w : World) : World :=
  mkWorld (clock w) (currentState w) v (countdownTotalSec w)
    (countdownRemainingSec w) (countdownAxisLabel w) (lastCountdownTick w)
    (countdownRotation w) (lastAlarmToggleMs w) (alarmOutputState w)
    (axisChangePending w) (axisChangeStartMs w) (currentNoteIndex w)
    (noteStartMs w) (ledPin w) (piezoPin w) (toneHz w) (trace w).

Definition set_countdownTotalSec (v : Z) (w : World) : World :=
  mkWorld (clock w) (currentState w) (activeFace w) v (countdownRemainingSec
    w) (countdownAxisLabel w) (lastCountdownTick w) (countdownRotation w)
    (lastAlarmToggleMs w) (alarmOutputState w) (axisChangePending w)
    (axisChangeStartMs w) (currentNoteIndex w) (noteStartMs w) (ledPin w)
    (piezoPin w) (toneHz w) (trace w).

Definition set_countdownRemainingSec (v : Z) (w : World) : World :=
  mkWorld (clock w) (currentState w) (activeFace w) (countdownTotalSec w) v
    (countdownAxisLabel w) (lastCountdownTick w) (countdownRotation w)
    (lastAlarmToggleMs w) (alarmOutputState w) (axisChangePending w)
    (axisChangeStartMs w) (currentNoteIndex w) (noteStartMs w) (ledPin w)
    (piezoPin w) (toneHz w) (trace w).

Definition set_countdownAxisLabel (v : ascii) (w : World) : World :=
  mkWorld (clock w) (currentState w) (activeFace w) (countdownTotalSec w)
    (countdownRemainingSec w) v (lastCountdownTick w) (countdownRotation w)
    (lastAlarmToggleMs w) (alarmOutputState w) (axisChangePending w)
    (axisChangeStartMs w) (currentNoteIndex w) (noteStartMs w) (ledPin w)
    (piezoPin w) (toneHz w) (trace w).

Definition set_lastCountdownTick (v : Z) (w : World) : World :=
  mkWorld (clock w) (currentState w) (activeFace w) (countdownTotalSec w)
    (countdownRemainingSec w) (countdownAxisLabel w) v (countdownRotation w)
    (lastAlarmToggleMs w) (alarmOutputState w) (axisChangePending w)
    (axisChangeStartMs w) (currentNoteIndex w) (noteStartMs w) (ledPin w)
    (piezoPin w) (toneHz w) (trace w).

Definition set_countdownRotation (v : Z) (w : World) : World :=
  mkWorld (clock w) (currentState w) (activeFace w) (countdownTotalSec w)
    (countdownRemainingSec w) (countdownAxisLabel w) (lastCountdownTick w) v
    (lastAlarmToggleMs w) (alarmOutputState w) (axisChangePending w)
    (axisChangeStartMs w) (currentNoteIndex w) (noteStartMs w) (ledPin w)
    (piezoPin w) (toneHz w) (trace w).

Definition set_lastAlarmToggleMs (v : Z) (w : World) : World :=
  mkWorld (clock w) (currentState w) (activeFace w) (countdownTotalSec w)
    (countdownRemainingSec w) (countdownAxisLabel w) (lastCountdownTick w)
    (countdownRotation w) v (alarmOutputState w) (axisChangePending w)
    (axisChangeStartMs w) (currentNoteIndex w) (noteStartMs w) (ledPin w)
    (piezoPin w) (toneHz w) (trace w).

Definition set_alarmOutputState (v : bool) (w : World) : World :=
  mkWorld (clock w) (currentState w) (activeFace w) (countdownTotalSec w)
    (countdownRemainingSec w) (countdownAxisLabel w) (lastCountdownTick w)
    (countdownRotation w) (lastAlarmToggleMs w) v (axisChangePending w)
    (axisChangeStartMs w) (currentNoteIndex w) (noteStartMs w) (ledPin w)
    (piezoPin w) (toneHz w) (trace w).

Definition set_axisChangePending (v : bool) (w : World) : World :=
  mkWorld (clock w) (currentState w) (activeFace w) (countdownTotalSec w)
    (countdownRemainingSec w) (countdownAxisLabel w) (lastCountdownTick w)
    (countdownRotation w) (lastAlarmToggleMs w) (alarmOutputState w) v
    (axisChangeStartMs w) (currentNoteIndex w) (noteStartMs w) (ledPin w)
    (piezoPin w) (toneHz w) (trace w).

Definition set_axisChangeStartMs (v : Z) (w : World) : World :=
  mkWorld (clock w) (currentState w) (activeFace w) (countdownTotalSec w)
    (countdownRemainingSec w) (countdownAxisLabel w) (lastCountdownTick w)
    (countdownRotation w) (lastAlarmToggleMs w) (alarmOutputState w)
    (axisChangePending w) v (currentNoteIndex w) (noteStartMs w) (ledPin w)
    (piezoPin w) (toneHz w) (trace w).

Definition set_currentNoteIndex (v : Z) (w : World) : World :=
  mkWorld (clock w) (currentState w) (activeFace w) (countdownTotalSec w)
    (countdownRemainingSec w) (countdownAxisLabel w) (lastCountdownTick w)
    (countdownRotation w) (lastAlarmToggleMs w) (alarmOutputState w)
    (axisChangePending w) (axisChangeStartMs w) v (noteStartMs w) (ledPin w)
    (piezoPin w) (toneHz w) (trace w).

Definition set_noteStartMs (v : Z) (w : World) : World :=
  mkWorld (clock w) (currentState w) (activeFace w) (countdownTotalSec w)
    (countdownRemainingSec w) (countdownAxisLabel w) (lastCountdownTick w)
    (countdownRotation w) (lastAlarmToggleMs w) (alarmOutputState w)
    (axisChangePending w) (axisChangeStartMs w) (currentNoteIndex w) v
    (ledPin w) (piezoPin w) (toneHz w) (trace w).

Definition set_ledPin (v : bool) (w : World) : World :=
  mkWorld (clock w) (currentState w) (activeFace w) (countdownTotalSec w)
    (countdownRemainingSec w) (countdownAxisLabel w) (lastCountdownTick w)
    (countdownRotation w) (lastAlarmToggleMs w) (alarmOutputState w)
    (axisChangePending w) (axisChangeStartMs w) (currentNoteIndex w)
    (noteStartMs w) v (piezoPin w) (toneHz w) (trace w).

Definition set_piezoPin (v : bool) (w : World) : World :=
  mkWorld (clock w) (currentState w) (activeFace w) (countdownTotalSec w)
    (countdownRemainingSec w) (countdownAxisLabel w) (lastCountdownTick w)
    (countdownRotation w) (lastAlarmToggleMs w) (alarmOutputState w)
    (axisChangePending w) (axisChangeStartMs w) (currentNoteIndex w)
    (noteStartMs w) (ledPin w) v (toneHz w) (trace w).

Definition set_toneHz (v : Z) (w : World) : World :=
  mkWorld (clock w) (currentState w) (activeFace w) (countdownTotalSec w)
    (countdownRemainingSec w) (countdownAxisLabel w) (lastCountdownTick w)
    (countdownRotation w) (lastAlarmToggleMs w) (alarmOutputState w)
    (axisChangePending w) (axisChangeStartMs w) (currentNoteIndex w)
    (noteStartMs w) (ledPin w) (piezoPin w) v (trace w).

Definition set_trace (v : list (Z * Event)) (w : World) : World :=
  mkWorld (clock w) (currentState w) (activeFace w) (countdownTotalSec w)
    (countdownRemainingSec w) (countdownAxisLabel w) (lastCountdownTick w)
    (countdownRotation w) (lastAlarmToggleMs w) (alarmOutputState w)
    (axisChangePending w) (axisChangeStartMs w) (currentNoteIndex w)
    (noteStartMs w) (ledPin w) (piezoPin w) (toneHz w) v.

(** ** Output primitives *)

Definition emit (e : Event) (w : World) : World :=
  set_trace ((clock w, e) :: trace w) w.

Definition digitalWrite_LED (level : bool) (w : World) : World :=
  emit (EvLed level) (set_ledPin level w).

Definition digitalWrite_PIEZO (level : bool) (w : World) : World :=
  emit (EvPiezo level) (set_piezoPin level w).

Definition tone (hz : Z) (w : World) : World :=
  emit (EvTone hz) (set_toneHz hz w).

Definition noTone (w : World) : World :=
  emit EvNoTone (set_toneHz 0 w).

Definition drawMenu (w : World) : World := emit EvDrawMenu w.

Definition drawCountdownScreen (w : World) : World :=
  emit (EvDrawCountdown (countdownRotation w) (countdownRemainingSec w)) w.

(** The "Time's Up!" screen drawn at the end of [startAlarm]. *)
Definition drawAlarmScreen (w : World) : World :=
  emit (EvDrawAlarm (countdownRotation w)) w.

(** [delay(ms)] and any other passing of time. *)
Definition delay (ms : Z) (w : World) : World := set_clock (clock w + ms) w.

(** ** Menu logic *)

Definition goToMenu (w : World) : World :=
  let w := set_currentState STATE_MENU w in
  let w := set_activeFace FACE_NONE w in
  let w := set_axisChangePending false w in
  let w := digitalWrite_LED false w in
  let w := digitalWrite_PIEZO false w in
  let w := noTone w in
  drawMenu w.

(** One reading of the accelerometer, with [lag]: the milliseconds that
    passed since the previous iteration of [loop] ended (sensor and display
    traffic), on top of the iteration's own [delay(50)]. *)
Record Input : Type := mkInput {
  lag : Z;
  accX : spec_float;
  accY : spec_float;
  accZ : spec_float
}.

Section Sketch.

(** Conversion of an integer to [unsigned long]. *)
Variable ulong : Z -> Z.

Definition millis (w : World) : Z := ulong (clock w).

(** The [unsigned long] difference [now - anchor]. *)
Definition elapsed (now anchor : Z) : Z := ulong (now - anchor).

(** *** Countdown logic *)

Definition startCountdown (seconds : Z) (axisLabel : ascii)
           (rotationIndex : Z) (face : Face) (w : World) : World :=
  let w := set_countdownTotalSec seconds w in
  let w := set_countdownRemainingSec seconds w in
  let w := set_countdownAxisLabel axisLabel w in
  let w := set_countdownRotation rotationIndex w in
  let w := set_lastCountdownTick (millis w) w in
  let w := set_currentState STATE_COUNTDOWN w in
  let w := set_activeFace face w in
  let w := set_axisChangePending false w in
  drawCountdownScreen w.

(** *** Alarm logic *)

Definition startAlarm (w : World) : World :=
  let w := set_currentState STATE_ALARM w in
  let w := set_lastAlarmToggleMs (millis w) w in
  let w := set_alarmOutputState false w in
  let w := set_currentNoteIndex 0 w in
  let w := set_noteStartMs (millis w) w in
  let w := digitalWrite_LED false w in
  let w := digitalWrite_PIEZO false w in
  let w := if aread melody (currentNoteIndex w) >? 0
           then tone (aread melody (currentNoteIndex w)) w
           else noTone w in
  drawAlarmScreen w.

Definition updateCountdown (w : World) : World :=
  match currentState w with
  | STATE_COUNTDOWN =>
      let now := millis w in
      if elapsed now (lastCountdownTick w) >=? 1000 then
        let w := set_lastCountdownTick now w in
        if countdownRemainingSec w >? 0 then
          let w := set_countdownRemainingSec (countdownRemainingSec w - 1) w in
          drawCountdownScreen w
        else
          startAlarm w
      else w
  | _ => w
  end.

(** The blink half of [updateAlarm]. *)
Definition updateBlink (now : Z) (w : World) : World :=
  if elapsed now (lastAlarmToggleMs w) >=? ALARM_TOGGLE_MS then
    let w := set_lastAlarmToggleMs now w in
    let w := set_alarmOutputState (negb (alarmOutputState w)) w in
    digitalWrite_LED (alarmOutputState w) w
  else w.

(** The melody half of [updateAlarm]. *)
Definition updateMelody (now : Z) (w : World) : World :=
  if elapsed now (noteStartMs w) >=? aread noteDurations (currentNoteIndex w) then
    let w := set_currentNoteIndex (currentNoteIndex w + 1) w in
    let w := if currentNoteIndex w >=? NUM_NOTES
             then set_currentNoteIndex 0 w
             else w in
    let w := set_noteStartMs now w in
    let freq := aread melody (currentNoteIndex w) in
    if freq >? 0 then tone freq w else noTone w
  else w.

Definition updateAlarm (w : World) : World :=
  match currentState w with
  | STATE_ALARM =>
      let now := millis w in
      let w := updateBlink now w in
      updateMelody now w
  | _ => w
  end.

(** *** The main loop *)

(** The [switch (currentState)] of [loop], followed by [delay(50)]. *)
Definition dispatch (currentFace : Face) (w : World) : World :=
  let w :=
    match currentState w with
    | STATE_MENU =>
        match currentFace with
        | FACE_NEG_Y => startCountdown COUNT_NEG_Y_SEC "Y" 0 FACE_NEG_Y w
        | FACE_POS_X => startCountdown COUNT_NEG_X_SEC "X" 1 FACE_POS_X w
        | FACE_POS_Y => startCountdown COUNT_POS_Y_SEC "Y" 2 FACE_POS_Y w
        | FACE_NEG_X => startCountdown COUNT_POS_X_SEC "X" 3 FACE_NEG_X w
        | FACE_NONE => w
        end
    | STATE_COUNTDOWN => updateCountdown w
    | STATE_ALARM => updateAlarm w
    end in
  delay 50 w.

Definition loop (i : Input) (w : World) : World :=
  (* lis.getEvent(&event) *)
  let w := delay (lag i) w in
  let currentFace := detectFace (accX i) (accY i) (accZ i) in
  let now := millis w in
  match currentState w with
  | STATE_COUNTDOWN | STATE_ALARM =>
      if Face_eqb currentFace (activeFace w)
         && negb (Face_eqb currentFace FACE_NONE)
      then dispatch currentFace (set_axisChangePending false w)
      else if negb (axisChangePending w)
      then dispatch currentFace
             (set_axisChangeStartMs now (set_axisChangePending true w))
      else if elapsed now (axisChangeStartMs w) >=? AXIS_CHANGE_BUFFER_MS
      then goToMenu w                 (* return: no dispatch, no delay *)
      else dispatch currentFace w
  | STATE_MENU =>
      dispatch currentFace
        (set_activeFace FACE_NONE (set_axisChangePending false w))
  end.

(** Successive iterations of [loop], one per input. *)
Fixpoint run (ins : list Input) (w : World) : World :=
  match ins with
  | [] => w
  | i :: ins' => run ins' (loop i w)
  end.

End Sketch.

(** [unsigned long] on the ESP32 has 32 bits. *)
Definition ulong32 (z : Z) : Z := z mod 2 ^ 32.

(** An unbounded millisecond counter, for comparison. *)
Definition unbounded (z : Z) : Z := z.

(** The globals as initialised by their declarations, [t0] milliseconds
    after power-up. *)
Definition power_on (t0 : Z) : World :=
  {| clock := t0;
     currentState := STATE_MENU;
     activeFace := FACE_NONE;
     countdownTotalSec := 0;
     countdownRemainingSec := 0;
     countdownAxisLabel := "?";
     lastCountdownTick := 0;
     countdownRotation := 0;
     lastAlarmToggleMs := 0;
     alarmOutputState := false;
     axisChangePending := false;
     axisChangeStartMs := 0;
     currentNoteIndex := 0;
     noteStartMs := 0;
     ledPin := false;
     piezoPin := false;
     toneHz := 0;
     trace := [] |}.

(** The part of [setup] that follows the initialisation of the display and
    the sensor; [t0] is the clock at that point. *)
Definition setup (t0 : Z) : World :=
  let w := power_on t0 in
  let w := digitalWrite_PIEZO false w in
  let w := digitalWrite_LED false w in
  goToMenu w.

(** ** Vocabulary of the statements *)

(** The largest [lag] for which the elapsed-time tests of the sketch see
    the true elapsed time: the longest interval measured, one second, and
    one [delay(50)] still fit below 2^32. *)
Definition MAX_LAG : Z := 2 ^ 32 - 1050.

(** The time taken by a sequence of iterations that all reach their
    [delay(50)]. *)
Fixpoint span (ins : list Input) : Z :=
  match ins with
  | [] => 0
  | i :: ins' => lag i + 50 + span ins'
  end.

(** Samples of the device at rest: gravity, 9.75 m/s^2, along one axis. *)
Definition gravity : spec_float := F32.of_dyadic 39 (-2).

Definition rest_negY (lag : Z) : Input :=
  mkInput lag F32.zero (SFopp gravity) F32.zero.

Definition rest_posX (lag : Z) : Input :=
  mkInput lag gravity F32.zero F32.zero.

Definition rest_flat (lag : Z) : Input :=
  mkInput lag F32.zero F32.zero gravity.

(** The calls of [trace] in the order they were issued, and among them the
    writes to the LED pin and the tones started. *)
Definition history (w : World) : list (Z * Event) := rev (trace w).

Fixpoint led_writes_of (h : list (Z * Event)) : list (Z * bool) :=
  match h with
  | [] => []
  | (t, EvLed level) :: h' => (t, level) :: led_writes_of h'
  | _ :: h' => led_writes_of h'
  end.

Fixpoint tones_of (h : list (Z * Event)) : list (Z * Z) :=
  match h with
  | [] => []
  | (t, EvTone hz) :: h' => (t, hz) :: tones_of h'
  | _ :: h' => tones_of h'
  end.

Definition led_writes (w : World) : list (Z * bool) := led_writes_of (history w).
Definition tones (w : World) : list (Z * Z) := tones_of (history w).

(** [m] is the magnitude of a dominant axis: one of the three absolute
    values, not exceeded by any of them. *)
Definition dominant (m ax ay az : spec_float) : Prop :=
  In m [ax; ay; az] /\
  F32.ge m ax = true /\ F32.ge m ay = true /\ F32.ge m az = true.

(** The states the board can be in: [setup] has run, then [loop] any
    number of times. *)
Inductive reachable : World -> Prop :=
| reach_setup (t0 : Z) : 0 <= t0 -> reachable (setup t0)
| reach_loop (i : Input) (w : World) :
    reachable w -> 0 <= lag i -> reachable (loop ulong32 i w).

(** What holds in every reachable state. *)
Record invariant (w : World) : Prop := {
  inv_face : currentState w = STATE_MENU \/ activeFace w <> FACE_NONE;
  inv_remaining : 0 <= countdownRemainingSec w <= countdownTotalSec w;
  inv_note : 0 <= currentNoteIndex w < NUM_NOTES
}.

(** The durations and display rotations observed for the four trigger
    faces. *)
Definition faceDuration (f : Face) : Z :=
  match f with
  | FACE_NONE => 0
  | FACE_NEG_Y => 5
  | FACE_POS_X => 30
  | FACE_POS_Y => 15
  | FACE_NEG_X => 10
  end.

Definition faceRotation (f : Face) : Z :=
  match f with
  | FACE_NONE => 0
  | FACE_NEG_Y => 0
  | FACE_POS_X => 1
  | FACE_POS_Y => 2
  | FACE_NEG_X => 3
  end.

(** The face seen by [loop] differs from the active one. *)
Definition differs (f : Face) (i : Input) : Prop :=
  detectFace (accX i) (accY i) (accZ i) <> f.

(** The observed face and the lag of every input of a reorientation. *)
Definition reoriented (f : Face) (i : Input) : Prop :=
  differs f i /\ 0 <= lag i <= MAX_LAG.

(** The state reached by the iteration that closes the window: the menu,
    with the outputs off and the countdown's seconds as they were. *)
Definition back_in_menu (w1 w2 : World) : Prop :=
  currentState w1 <> STATE_MENU /\
  currentState w2 = STATE_MENU /\
  activeFace w2 = FACE_NONE /\
  axisChangePending w2 = false /\
  ledPin w2 = false /\ piezoPin w2 = false /\ toneHz w2 = 0 /\
  countdownRemainingSec w2 = countdownRemainingSec w1 /\
  countdownTotalSec w2 = countdownTotalSec w1.

(** The state after [n] iterations of [loop], 50 ms apart, with the device
    resting on its -Y face since [setup]. *)
Definition held_negY (n : nat) : World :=
  run ulong32 (repeat (rest_negY 0) n) (setup 0).

(** The two sub-clocks of the alarm, each as a function of its own state
    and of the reading [now] of [millis]: the blink clock on the time of
    the last toggle and the level, the melody clock on the note index and
    the time the note began. *)
Definition blink_step (now : Z) (b : Z * bool) : Z * bool :=
  let (last, level) := b in
  if ulong32 (now - last) >=? 1000 then (now, negb level) else (last, level).

Definition melody_step (now : Z) (m : Z * Z) : Z * Z :=
  let (index, began) := m in
  if ulong32 (now - began) >=? aread noteDurations index
  then ((index + 1) mod 13, now)
  else (index, began).

(** An input that shows face [f], 50 ms after the previous one. *)
Definition steady (f : Face) (i : Input) : Prop :=
  detectFace (accX i) (accY i) (accZ i) = f /\ lag i = 0.

(** The state of the sketch run with 32-bit [unsigned long] ([real])
    against its state run with an unbounded counter ([ideal]): the same
    clock, globals, pin levels and trace of calls, and time stamps that
    are those of the unbounded run reduced modulo 2^32. *)
Record same_behaviour (real ideal : World) : Prop := {
  sb_clock : clock real = clock ideal;
  sb_state : currentState real = currentState ideal;
  sb_face : activeFace real = activeFace ideal;
  sb_total : countdownTotalSec real = countdownTotalSec ideal;
  sb_remaining : countdownRemainingSec real = countdownRemainingSec ideal;
  sb_label : countdownAxisLabel real = countdownAxisLabel ideal;
  sb_rotation : countdownRotation real = countdownRotation ideal;
  sb_level : alarmOutputState real = alarmOutputState ideal;
  sb_pending : axisChangePending real = axisChangePending ideal;
  sb_note : currentNoteIndex real = currentNoteIndex ideal;
  sb_led : ledPin real = ledPin ideal;
  sb_piezo : piezoPin real = piezoPin ideal;
  sb_tone : toneHz real = toneHz ideal;
  sb_trace : trace real = trace ideal;
  sb_tick : lastCountdownTick real = ulong32 (lastCountdownTick ideal);
  sb_toggle : lastAlarmToggleMs real = ulong32 (lastAlarmToggleMs ideal);
  sb_window : axisChangeStartMs real = ulong32 (axisChangeStartMs ideal);
  sb_began : noteStartMs real = ulong32 (noteStartMs ideal)
}.

(** Between two iterations, the time stamps the next iteration will read
    are recent: each is re-anchored as soon as an iteration finds it old
    enough, and an iteration ends with [delay(50)]. *)
Record fresh (w : World) : Prop := {
  fr_note : 0 <= currentNoteIndex w < NUM_NOTES;
  fr_tick : currentState w = STATE_COUNTDOWN ->
            0 <= clock w - lastCountdownTick w <= 1049;
  fr_toggle : currentState w = STATE_ALARM ->
              0 <= clock w - lastAlarmToggleMs w <= 1049;
  fr_began : currentState w = STATE_ALARM ->
             0 <= clock w - noteStartMs w <= 649;
  fr_window : axisChangePending w = true ->
              0 <= clock w - axisChangeStartMs w <= 549
}.

(** ** Vocabulary of the further properties *)

(** The axis label [startCountdown] receives for each face. *)
Definition faceLabel (f : Face) : ascii :=
  match f with
  | FACE_NONE => "?"
  | FACE_NEG_Y => "Y"
  | FACE_POS_X => "X"
  | FACE_POS_Y => "Y"
  | FACE_NEG_X => "X"
  end.

(** The session held in the globals agrees with the state: no active
    face and no window in the menu, and outside the menu the total, the
    rotation and the label that [loop] passes for the active face. *)
Record session_consistent (w : World) : Prop := {
  sc_menu_face : currentState w = STATE_MENU -> activeFace w = FACE_NONE;
  sc_menu_window : currentState w = STATE_MENU -> axisChangePending w = false;
  sc_total : currentState w <> STATE_MENU ->
             countdownTotalSec w = faceDuration (activeFace w);
  sc_rotation : currentState w <> STATE_MENU ->
                countdownRotation w = faceRotation (activeFace w);
  sc_label : currentState w <> STATE_MENU ->
             countdownAxisLabel w = faceLabel (activeFace w)
}.

(** The levels of the outputs agree with the state: the piezo pin is low,
    outside the alarm the LED is low and no tone plays, in the alarm the
    LED shows [alarmOutputState] and the tone is the current note. *)
Record outputs_consistent (w : World) : Prop := {
  oc_piezo : piezoPin w = false;
  oc_led_off : currentState w <> STATE_ALARM -> ledPin w = false;
  oc_tone_off : currentState w <> STATE_ALARM -> toneHz w = 0;
  oc_led : currentState w = STATE_ALARM -> ledPin w = alarmOutputState w;
  oc_tone : currentState w = STATE_ALARM ->
            toneHz w = aread melody (currentNoteIndex w)
}.

(** A call that the sketch can issue: the piezo pin is only written low,
    a tone is a note of the melody, a countdown screen shows between 0 and
    30 seconds, and a rotation is one of the four of the display. *)
Definition event_ok (e : Event) : Prop :=
  match e with
  | EvLed _ => True
  | EvPiezo level => level = false
  | EvTone hz => In hz melody
  | EvNoTone => True
  | EvDrawMenu => True
  | EvDrawCountdown rotation remaining =>
      0 <= rotation <= 3 /\ 0 <= remaining <= 30
  | EvDrawAlarm rotation => 0 <= rotation <= 3
  end.

(** The calls of a trace, newest first, are stamped with times that do
    not increase towards the older calls and do not exceed [bound]. *)
Fixpoint stamps_ordered (bound : Z) (tr : list (Z * Event)) : Prop :=
  match tr with
  | [] => True
  | (t, _) :: tr' => t <= bound /\ stamps_ordered t tr'
  end.

Record trace_consistent (w : World) : Prop := {
  tc_events : Forall (fun te => event_ok (snd te)) (trace w);
  tc_stamps : stamps_ordered (clock w) (trace w)
}.

(** The face on the opposite side of the device. *)
Definition opposite (f : Face) : Face :=
  match f with
  | FACE_NONE => FACE_NONE
  | FACE_NEG_Y => FACE_POS_Y
  | FACE_POS_X => FACE_NEG_X
  | FACE_POS_Y => FACE_NEG_Y
  | FACE_NEG_X => FACE_POS_X
  end.

(** The runs of consecutive iterations that see another face than [f] are
    all shorter than 500 ms.  [window] is the age, at the end of the
    previous iteration, of the run that iteration belonged to, if it saw
    another face: a run starts with the reading of the clock by its first
    iteration, and every iteration ends with [delay(50)]. *)
Fixpoint deviations_short (f : Face) (window : option Z) (ins : list Input) : Prop :=
  match ins with
  | [] => True
  | i :: ins' =>
      if Face_eqb (detectFace (accX i) (accY i) (accZ i)) f
      then deviations_short f None ins'
      else match window with
           | None => deviations_short f (Some 50) ins'
           | Some age =>
               age + lag i < AXIS_CHANGE_BUFFER_MS /\
               deviations_short f (Some (age + lag i + 50)) ins'
           end
  end.

(** The debounce window of [w] is the one described by [window]. *)
Definition window_matches (w : World) (window : option Z) : Prop :=
  match window with
  | None => axisChangePending w = false
  | Some age =>
      axisChangePending w = true /\
      axisChangeStartMs w = ulong32 (clock w - age) /\
      50 <= age < 550
  end.

(** The note that follows note [n] of the melody. *)
Definition next_note (n : Z) : Z := (n + 1) mod 13.

(** The number of iterations, 50 ms apart, that [count] notes of the
    melody take, from note [n] on. *)
Fixpoint notes_length (n : Z) (count : nat) : nat :=
  match count with
  | O => O
  | S count' =>
      (Z.to_nat (aread noteDurations n / 50) + notes_length (next_note n) count')%nat
  end.



(** The most recent write to the LED pin in a trace (newest first). *)
Fixpoint last_led (tr : list (Z * Event)) : option (Z * bool) :=
  match tr with
  | [] => None
  | (t, EvLed level) :: _ => Some (t, level)
  | _ :: tr' => last_led tr'
  end.

(** Every write of the LED pin to high comes at least 1000 ms after the
    previous write to the pin, and that write was to low. *)
Fixpoint led_spaced (tr : list (Z * Event)) : Prop :=
  match tr with
  | [] => True
  | (t, EvLed true) :: tr' =>
      (exists t1, last_led tr' = Some (t1, false) /\ t1 + ALARM_TOGGLE_MS <= t) /\
      led_spaced tr'
  | _ :: tr' => led_spaced tr'
  end.

(** In the alarm, the time stamp of the blink clock is that of the last
    write to the LED pin, at most 1049 ms ago, and the level written is
    [alarmOutputState]. *)
Record blink_consistent (w : World) : Prop := {
  bc_spaced : led_spaced (trace w);
  bc_anchor : currentState w = STATE_ALARM ->
              exists toggled : Z,
                last_led (trace w) = Some (toggled, alarmOutputState w) /\
                lastAlarmToggleMs w = ulong32 toggled /\
                0 <= clock w - toggled <= 1049
}.

(** * Properties *)

(** ** The comparisons of binary32 values *)

Lemma AXIS_G_MIN_value : AXIS_G_MIN = S754_finite false 9437184 (-20).
Proof. vm_compute. reflexivity. Qed.

Lemma AXIS_G_MAX_value : AXIS_G_MAX = S754_finite false 12058624 (-20).
Proof. vm_compute. reflexivity. Qed.

Module F32Facts.
Import F32.

Lemma compare_cont_Eq_refl (p : positive) : Pos.compare_cont Eq p p = Eq.
Proof. exact (Pos.compare_refl p). Qed.

Lemma compare_cont_Eq_eq (p q : positive) :
  Pos.compare_cont Eq p q = Eq -> p = q.
Proof. exact (Pos.compare_eq p q). Qed.

Lemma compare_cont_Eq_antisym (p q : positive) :
  Pos.compare_cont Eq q p = CompOpp (Pos.compare_cont Eq p q).
Proof. exact (Pos.compare_antisym p q). Qed.

(** A comparison that succeeds has no NaN on its left. *)
Lemma ge_refl_l (a b : spec_float) : ge a b = true -> ge a a = true.
Proof.
  unfold ge. destruct a as [s| s | |s m e], b as [s'|s'| |s' m' e'];
    simpl; try discriminate; intros _;
    try (destruct s; reflexivity).
  all: destruct s; rewrite Z.compare_refl, compare_cont_Eq_refl; reflexivity.
Qed.

(** On absolute values the order is antisymmetric up to Leibniz equality. *)
Lemma ge_antisym_abs (a b : spec_float) :
  ge (fabsf a) (fabsf b) = true ->
  ge (fabsf b) (fabsf a) = true ->
  fabsf a = fabsf b.
Proof.
  unfold ge, fabsf.
  destruct a as [s| s | |s m e], b as [s'|s'| |s' m' e'];
    simpl; try discriminate; try reflexivity.
  rewrite (Z.compare_antisym e e'), (compare_cont_Eq_antisym m m').
  destruct (e ?= e') eqn:He; simpl; try discriminate.
  apply Z.compare_eq in He. subst e'.
  destruct (Pos.compare_cont Eq m m') eqn:Hm; simpl; try discriminate.
  apply compare_cont_Eq_eq in Hm. subst m'. reflexivity.
Qed.

Lemma lt_not_ge (a b : spec_float) : lt a b = true -> ge a b = false.
Proof. unfold lt, ge. destruct (SFcompare a b) as [[]|]; easy. Qed.

Lemma lt_ge_swap (a b : spec_float) : lt a b = true -> ge b a = true.
Proof.
  unfold lt, ge.
  destruct a as [s| s | |s m e], b as [s'|s'| |s' m' e'];
    simpl; try discriminate;
    try (destruct s; try destruct s'; simpl; easy);
    try (destruct s'; simpl; easy).
  rewrite (Z.compare_antisym e e'), (compare_cont_Eq_antisym m m').
  destruct s, s'; simpl; try easy;
    destruct (e ?= e'); simpl; try easy;
    destruct (Pos.compare_cont Eq m m'); simpl; easy.
Qed.

(** A value in the band is neither zero nor a NaN, so its sign decides
    between [> 0] and [< 0]. *)
Lemma in_band_sign (y : spec_float) :
  in_band (fabsf y) = true -> gt y zero = negb (lt y zero).
Proof.
  intros H.
  destruct y as [s|s| |s m e]; try (destruct s; reflexivity).
  - destruct s; vm_compute in H; discriminate.
  - vm_compute in H; discriminate.
Qed.

Lemma nan_not_ge_l (a : spec_float) : ge S754_nan a = false.
Proof. reflexivity. Qed.

Lemma nan_not_ge_r (a : spec_float) : ge a S754_nan = false.
Proof. unfold ge. destruct a; reflexivity. Qed.

End F32Facts.

(** ** The orientation classifier *)

Lemma detectFace_unfold (x y z : spec_float) :
  detectFace x y z =
  if F32.ge (F32.fabsf y) (F32.fabsf x) && F32.ge (F32.fabsf y) (F32.fabsf z)
     && in_band (F32.fabsf y)
  then (if F32.gt y F32.zero then FACE_POS_Y else FACE_NEG_Y)
  else if F32.ge (F32.fabsf x) (F32.fabsf y) && F32.ge (F32.fabsf x) (F32.fabsf z)
          && in_band (F32.fabsf x)
  then (if F32.gt x F32.zero then FACE_POS_X else FACE_NEG_X)
  else FACE_NONE.
Proof.
  unfold detectFace, in_band. cbv zeta.
  rewrite <- !andb_assoc.
  destruct (F32.ge (F32.fabsf y) (F32.fabsf x) && _); [reflexivity|].
  destruct (F32.ge (F32.fabsf x) (F32.fabsf y) && _); [reflexivity|].
  destruct (_ && _); reflexivity.
Qed.

(** Two dominant magnitudes are the same value. *)
Lemma dominant_unique (x y z : spec_float) (m : spec_float) (a : spec_float) :
  dominant m (F32.fabsf x) (F32.fabsf y) (F32.fabsf z) ->
  In a [F32.fabsf x; F32.fabsf y; F32.fabsf z] ->
  F32.ge a (F32.fabsf x) = true ->
  F32.ge a (F32.fabsf y) = true ->
  F32.ge a (F32.fabsf z) = true ->
  m = a.
Proof.
  intros (Hin & Hx & Hy & Hz) Ha Hax Hay Haz.
  assert (Hma : F32.ge m a = true).
  { simpl in Ha. destruct Ha as [<-|[<-|[<-|[]]]]; assumption. }
  assert (Ham : F32.ge a m = true).
  { simpl in Hin. destruct Hin as [<-|[<-|[<-|[]]]]; assumption. }
  simpl in Ha, Hin.
  destruct Ha as [<-|[<-|[<-|[]]]]; destruct Hin as [<-|[<-|[<-|[]]]];
    try reflexivity; apply F32Facts.ge_antisym_abs; assumption.
Qed.

(** C6. A sample whose dominant axis (an axis whose absolute value is not
    exceeded by the other two) has a magnitude outside the band
    [[9.0, 11.5]] is classified as [FACE_NONE]. *)
Theorem detectFace_out_of_band (x y z m : spec_float) :
  dominant m (F32.fabsf x) (F32.fabsf y) (F32.fabsf z) ->
  in_band m = false ->
  detectFace x y z = FACE_NONE.
Proof.
  intros Hdom Hband. rewrite detectFace_unfold.
  destruct (F32.ge (F32.fabsf y) (F32.fabsf x)) eqn:Hyx; simpl.
  - destruct (F32.ge (F32.fabsf y) (F32.fabsf z)) eqn:Hyz; simpl.
    + assert (m = F32.fabsf y) as ->.
      { apply (dominant_unique x y z); auto.
        - simpl; auto.
        - apply F32Facts.ge_refl_l with (1 := Hyx). }
      rewrite Hband.
      destruct (F32.ge (F32.fabsf x) (F32.fabsf y)) eqn:Hxy; simpl; [|reflexivity].
      destruct (F32.ge (F32.fabsf x) (F32.fabsf z)) eqn:Hxz; simpl; [|reflexivity].
      rewrite (F32Facts.ge_antisym_abs x y Hxy Hyx), Hband. reflexivity.
    + destruct (F32.ge (F32.fabsf x) (F32.fabsf y)) eqn:Hxy; simpl; [|reflexivity].
      destruct (F32.ge (F32.fabsf x) (F32.fabsf z)) eqn:Hxz; simpl; [|reflexivity].
      assert (m = F32.fabsf x) as ->.
      { apply (dominant_unique x y z); auto.
        - simpl; auto.
        - apply F32Facts.ge_refl_l with (1 := Hxy). }
      rewrite Hband. reflexivity.
  - destruct (F32.ge (F32.fabsf x) (F32.fabsf y)) eqn:Hxy; simpl; [|reflexivity].
    destruct (F32.ge (F32.fabsf x) (F32.fabsf z)) eqn:Hxz; simpl; [|reflexivity].
    assert (m = F32.fabsf x) as ->.
    { apply (dominant_unique x y z); auto.
      - simpl; auto.
      - apply F32Facts.ge_refl_l with (1 := Hxy). }
    rewrite Hband. reflexivity.
Qed.

Lemma detectFace_out_of_band_witness :
  detectFace F32.zero (F32.of_dyadic 12 0) (F32.of_dyadic 3 0) = FACE_NONE.
Proof.
  apply (detectFace_out_of_band _ _ _ (F32.of_dyadic 12 0)).
  - unfold dominant. vm_compute. repeat split; auto.
  - vm_compute. reflexivity.
Defined.

Lemma detectFace_nan (x y z : spec_float) :
  F32.is_nan x || F32.is_nan y || F32.is_nan z = true ->
  detectFace x y z = FACE_NONE.
Proof.
  intros H. rewrite detectFace_unfold.
  destruct x, y, z; simpl in H; try discriminate;
    unfold F32.fabsf; simpl SFabs;
    rewrite ?F32Facts.nan_not_ge_l, ?F32Facts.nan_not_ge_r, ?andb_false_r;
    simpl; rewrite ?andb_false_r; reflexivity.
Qed.

(** C7. [detectFace] is a total function of the sample.  When the Y axis
    is not exceeded by X or Z (ties included) and is in the band, a Y face
    is returned; when X strictly exceeds Y, is not exceeded by Z (tie
    included) and is in the band, an X face is returned; in both cases the
    sign of the axis selects the face.  When Z strictly exceeds X and Y the
    result is [FACE_NONE], in the band or not.  A NaN in the sample also
    gives [FACE_NONE]. *)
Theorem detectFace_priority (x y z : spec_float) :
  let ax := F32.fabsf x in
  let ay := F32.fabsf y in
  let az := F32.fabsf z in
  (exists f : Face, detectFace x y z = f) /\
  (F32.ge ay ax = true -> F32.ge ay az = true -> in_band ay = true ->
   detectFace x y z = (if F32.gt y F32.zero then FACE_POS_Y else FACE_NEG_Y) /\
   F32.gt y F32.zero = negb (F32.lt y F32.zero)) /\
  (F32.lt ay ax = true -> F32.ge ax az = true -> in_band ax = true ->
   detectFace x y z = (if F32.gt x F32.zero then FACE_POS_X else FACE_NEG_X) /\
   F32.gt x F32.zero = negb (F32.lt x F32.zero)) /\
  (F32.lt ax az = true -> F32.lt ay az = true ->
   detectFace x y z = FACE_NONE) /\
  (F32.is_nan x || F32.is_nan y || F32.is_nan z = true ->
   detectFace x y z = FACE_NONE).
Proof.
  intros ax ay az. subst ax ay az.
  split; [eexists; reflexivity|].
  split; [|split; [|split]].
  - intros Hyx Hyz Hb. split.
    + rewrite detectFace_unfold, Hyx, Hyz, Hb. reflexivity.
    + apply F32Facts.in_band_sign, Hb.
  - intros Hlt Hxz Hb. split.
    + rewrite detectFace_unfold.
      rewrite (F32Facts.lt_not_ge _ _ Hlt), (F32Facts.lt_ge_swap _ _ Hlt), Hxz, Hb.
      reflexivity.
    + apply F32Facts.in_band_sign, Hb.
  - intros Hx Hy. rewrite detectFace_unfold.
    rewrite (F32Facts.lt_not_ge _ _ Hx), (F32Facts.lt_not_ge _ _ Hy).
    rewrite !andb_false_r. reflexivity.
  - apply detectFace_nan.
Qed.

Lemma detectFace_priority_witness :
  detectFace (F32.of_dyadic 10 0) (SFopp (F32.of_dyadic 10 0)) (F32.of_dyadic 10 0)
    = FACE_NEG_Y /\
  detectFace (F32.of_dyadic 10 0) (F32.of_dyadic 5 0) (F32.of_dyadic 10 0)
    = FACE_POS_X /\
  detectFace (F32.of_dyadic 1 0) (F32.of_dyadic 5 0) (SFopp (F32.of_dyadic 10 0))
    = FACE_NONE /\
  detectFace S754_nan (F32.of_dyadic 10 0) F32.zero = FACE_NONE.
Proof.
  split; [|split; [|split]].
  - destruct (detectFace_priority
                (F32.of_dyadic 10 0) (SFopp (F32.of_dyadic 10 0)) (F32.of_dyadic 10 0))
      as (_ & H & _).
    destruct H as [E _]; [vm_compute; reflexivity ..|exact E].
  - destruct (detectFace_priority
                (F32.of_dyadic 10 0) (F32.of_dyadic 5 0) (F32.of_dyadic 10 0))
      as (_ & _ & H & _).
    destruct H as [E _]; [vm_compute; reflexivity ..|exact E].
  - destruct (detectFace_priority
                (F32.of_dyadic 1 0) (F32.of_dyadic 5 0) (SFopp (F32.of_dyadic 10 0)))
      as (_ & _ & _ & H & _).
    apply H; vm_compute; reflexivity.
  - destruct (detectFace_priority S754_nan (F32.of_dyadic 10 0) F32.zero)
      as (_ & _ & _ & _ & H).
    apply H; vm_compute; reflexivity.
Defined.

(** ** The control loop *)

(** *** Symbolic execution of the sketch

    The functions of the sketch unfold only on a [World] given by its
    fields, so [cbn] runs them in the order of the source and stops at
    each test that the goal leaves open. *)

#[local] Arguments Z.geb : simpl never.
#[local] Arguments Z.gtb : simpl never.
Arguments aread : simpl never.
Arguments ulong32 : simpl never.
Arguments set_clock v !w /.
Arguments set_currentState v !w /.
Arguments set_activeFace v !w /.
Arguments set_countdownTotalSec v !w /.
Arguments set_countdownRemainingSec v !w /.
Arguments set_countdownAxisLabel v !w /.
Arguments set_lastCountdownTick v !w /.
Arguments set_countdownRotation v !w /.
Arguments set_lastAlarmToggleMs v !w /.
Arguments set_alarmOutputState v !w /.
Arguments set_axisChangePending v !w /.
Arguments set_axisChangeStartMs v !w /.
Arguments set_currentNoteIndex v !w /.
Arguments set_noteStartMs v !w /.
Arguments set_ledPin v !w /.
Arguments set_piezoPin v !w /.
Arguments set_toneHz v !w /.
Arguments set_trace v !w /.
Arguments emit e !w /.
Arguments digitalWrite_LED level !w /.
Arguments digitalWrite_PIEZO level !w /.
Arguments tone hz !w /.
Arguments noTone !w /.
Arguments drawMenu !w /.
Arguments drawCountdownScreen !w /.
Arguments drawAlarmScreen !w /.
Arguments delay ms !w /.
Arguments goToMenu !w /.
Arguments millis ulong !w /.
Arguments elapsed ulong now anchor /.
Arguments startCountdown ulong seconds axisLabel rotationIndex face !w /.
Arguments startAlarm ulong !w /.
Arguments updateCountdown ulong !w /.
Arguments updateBlink ulong now !w /.
Arguments updateMelody ulong now !w /.
Arguments updateAlarm ulong !w /.
Arguments dispatch ulong currentFace !w /.
Arguments loop ulong i !w /.

(** Case analysis on the innermost open test, repeatedly. *)
Ltac split_tests :=
  repeat match goal with
         | |- context [if ?c then _ else _] =>
             lazymatch c with
             | context [if _ then _ else _] => fail
             | _ => destruct c eqn:?; cbn
             end
         | |- context [match ?f with FACE_NONE => _ | _ => _ end] =>
             destruct f eqn:?; cbn
         end.

(** The outcomes of the integer tests, as propositions. *)
Ltac tests_to_prop :=
  repeat match goal with
         | H : (_ >=? _) = true |- _ => rewrite Z.geb_leb in H; apply Z.leb_le in H
         | H : (_ >=? _) = false |- _ => rewrite Z.geb_leb in H; apply Z.leb_gt in H
         | H : (_ >? _) = true |- _ => rewrite Z.gtb_ltb in H; apply Z.ltb_lt in H
         | H : (_ >? _) = false |- _ => rewrite Z.gtb_ltb in H; apply Z.ltb_ge in H
         end.

Ltac unfold_constants :=
  unfold COUNT_NEG_Y_SEC, COUNT_POS_X_SEC, COUNT_POS_Y_SEC, COUNT_NEG_X_SEC,
    ALARM_TOGGLE_MS, AXIS_CHANGE_BUFFER_MS in *;
  change NUM_NOTES with 13 in *.

Ltac open_world w :=
  destruct w as [? ? ? ? ? ? ? ? ? ? ? ? ? ? ? ? ? ?]; cbn in *.

(** *** Reachable states and their invariant *)

Lemma reachable_run (ins : list Input) (w : World) :
  reachable w -> Forall (fun i => 0 <= lag i) ins ->
  reachable (run ulong32 ins w).
Proof.
  revert w. induction ins as [|i ins IH]; intros w Hw Hl; simpl; [assumption|].
  inversion Hl; subst. apply IH; [apply reach_loop|]; assumption.
Qed.

Lemma NUM_NOTES_value : NUM_NOTES = 13.
Proof. reflexivity. Qed.

Lemma invariant_setup (t0 : Z) : invariant (setup t0).
Proof. split; cbn; unfold_constants; [left; reflexivity|lia|lia]. Qed.

Lemma invariant_loop (i : Input) (w : World) :
  invariant w -> invariant (loop ulong32 i w).
Proof.
  intros [Hf Hr Hn]. unfold_constants.
  open_world w.
  destruct currentState0; cbn; split_tests;
    split; cbn; unfold_constants; tests_to_prop;
    try lia; try (exfalso; lia); try (left; reflexivity);
    try (right; discriminate);
    try (destruct Hf as [Hf|Hf]; [discriminate Hf|right; exact Hf]).
Qed.

Lemma reachable_invariant (w : World) : reachable w -> invariant w.
Proof.
  induction 1; [apply invariant_setup|apply invariant_loop; assumption].
Qed.

Lemma Face_eqb_eq (a b : Face) : Face_eqb a b = true <-> a = b.
Proof. destruct a, b; cbn; split; congruence. Qed.

Lemma Face_eqb_neq (a b : Face) : Face_eqb a b = false <-> a <> b.
Proof. destruct a, b; cbn; split; congruence. Qed.

(** *** Menu to countdown *)

(** C1. An iteration of [loop] in the menu state that classifies the
    sample as one of the four trigger faces moves to the countdown state,
    with [countdownRemainingSec] and [countdownTotalSec] set to the
    duration of the face: 5 s for -Y, 15 s for +Y, 30 s for +X (the
    constant named after -X) and 10 s for -X (the constant named after
    +X).  The countdown is started once: the iteration issues the single
    call that draws the countdown screen, and the next iteration, whatever
    its input, neither returns to the menu nor changes the total. *)
Theorem menu_starts_countdown (i : Input) (w : World) (f : Face) :
  currentState w = STATE_MENU ->
  detectFace (accX i) (accY i) (accZ i) = f ->
  f <> FACE_NONE ->
  let w' := loop ulong32 i w in
  currentState w' = STATE_COUNTDOWN /\
  activeFace w' = f /\
  countdownRemainingSec w' = faceDuration f /\
  countdownTotalSec w' = faceDuration f /\
  lastCountdownTick w' = ulong32 (clock w + lag i) /\
  axisChangePending w' = false /\
  trace w' =
    (clock w + lag i, EvDrawCountdown (faceRotation f) (faceDuration f)) :: trace w /\
  faceDuration FACE_NEG_Y = COUNT_NEG_Y_SEC /\
  faceDuration FACE_POS_Y = COUNT_POS_Y_SEC /\
  faceDuration FACE_POS_X = COUNT_NEG_X_SEC /\
  faceDuration FACE_NEG_X = COUNT_POS_X_SEC /\
  forall j : Input,
    currentState (loop ulong32 j w') <> STATE_MENU /\
    countdownTotalSec (loop ulong32 j w') = faceDuration f.
Proof.
  intros Hst Hf Hnone w'. subst w'.
  open_world w. subst.
  destruct (detectFace (accX i) (accY i) (accZ i)) eqn:Hd;
    [contradiction Hnone; reflexivity| | | |];
    cbn; repeat (split; [reflexivity|]);
    intros j; destruct (detectFace (accX j) (accY j) (accZ j));
    cbn; split_tests; split; (discriminate || reflexivity).
Qed.

Lemma menu_starts_countdown_witness :
  let i := rest_posX 0 in
  currentState (loop ulong32 i (setup 0)) = STATE_COUNTDOWN /\
  countdownRemainingSec (loop ulong32 i (setup 0)) = 30.
Proof.
  intros i.
  destruct (menu_starts_countdown i (setup 0) FACE_POS_X)
    as (H1 & _ & H2 & _).
  - reflexivity.
  - vm_compute. reflexivity.
  - discriminate.
  - split; [exact H1|exact H2].
Defined.

(** *** The countdown *)

(** C2. In a countdown session the remaining seconds stay between 0 and
    the total; an iteration of [loop] that stays in the countdown keeps the
    total and either keeps the remaining seconds or decrements them by one;
    the alarm is entered only from a remaining value of 0, which it keeps;
    and no iteration increases the remaining seconds or makes them
    negative. *)
Theorem countdown_remaining (i : Input) (w : World) :
  reachable w ->
  currentState w = STATE_COUNTDOWN ->
  let w' := loop ulong32 i w in
  0 <= countdownRemainingSec w <= countdownTotalSec w /\
  0 <= countdownRemainingSec w' <= countdownRemainingSec w /\
  countdownTotalSec w' = countdownTotalSec w /\
  (currentState w' = STATE_COUNTDOWN ->
   countdownRemainingSec w' = countdownRemainingSec w \/
   countdownRemainingSec w' = countdownRemainingSec w - 1) /\
  (currentState w' = STATE_ALARM ->
   countdownRemainingSec w = 0 /\ countdownRemainingSec w' = 0).
Proof.
  intros Hr Hst w'. subst w'.
  destruct (reachable_invariant w Hr) as [_ Hrem _].
  split; [exact Hrem|].
  open_world w. subst.
  split_tests; tests_to_prop; repeat split;
    try lia; try discriminate; auto.
Qed.

Lemma countdown_remaining_witness :
  let w := loop ulong32 (rest_negY 0) (setup 0) in
  let w' := loop ulong32 (rest_negY 2000) w in
  countdownRemainingSec w = 5 /\ countdownRemainingSec w' = 4 /\
  0 <= countdownRemainingSec w' <= countdownRemainingSec w.
Proof.
  intros w w'.
  assert (Hr : reachable w).
  { apply reach_loop; [apply reach_setup; lia|simpl; lia]. }
  destruct (countdown_remaining (rest_negY 2000) w Hr) as (_ & H & _).
  - vm_compute. reflexivity.
  - split; [reflexivity|split; [reflexivity|exact H]].
Defined.

(** *** Debounced return to the menu *)

(** The [unsigned long] difference of two readings of the clock is the
    time between them, as long as that time is below 2^32 ms. *)
Lemma ulong32_elapsed (a b : Z) :
  0 <= a - b < 2 ^ 32 ->
  ulong32 (ulong32 a - ulong32 b) = a - b.
Proof.
  intros H. unfold ulong32.
  rewrite Zminus_mod_idemp_l, Zminus_mod_idemp_r.
  apply Z.mod_small. exact H.
Qed.

Lemma ulong32_range (a : Z) : 0 <= ulong32 a < 2 ^ 32.
Proof. unfold ulong32. apply Z.mod_pos_bound. reflexivity. Qed.

Ltac face_cases i a :=
  destruct (detectFace (accX i) (accY i) (accZ i)), a; cbn in *;
  try congruence.

(** The first iteration that sees another face opens the window. *)
Lemma loop_opens_window (i : Input) (w : World) :
  currentState w <> STATE_MENU ->
  axisChangePending w = false ->
  differs (activeFace w) i ->
  let w' := loop ulong32 i w in
  currentState w' <> STATE_MENU /\
  activeFace w' = activeFace w /\
  axisChangePending w' = true /\
  axisChangeStartMs w' = ulong32 (clock w + lag i) /\
  clock w' = clock w + lag i + 50.
Proof.
  intros Hst Hp Hd w'. subst w'. unfold differs in Hd.
  open_world w. subst.
  destruct currentState0; [congruence| |];
    face_cases i activeFace0; split_tests;
    repeat split; congruence.
Qed.

(** While the window is open and less than 500 ms old, an iteration that
    still sees another face keeps it open. *)
Lemma loop_keeps_window (i : Input) (w : World) :
  currentState w <> STATE_MENU ->
  axisChangePending w = true ->
  differs (activeFace w) i ->
  ulong32 (ulong32 (clock w + lag i) - axisChangeStartMs w) < AXIS_CHANGE_BUFFER_MS ->
  let w' := loop ulong32 i w in
  currentState w' <> STATE_MENU /\
  activeFace w' = activeFace w /\
  axisChangePending w' = true /\
  axisChangeStartMs w' = axisChangeStartMs w /\
  clock w' = clock w + lag i + 50.
Proof.
  intros Hst Hp Hd He w'. subst w'. unfold differs in Hd.
  open_world w. subst.
  apply Z.leb_gt in He. rewrite <- Z.geb_leb in He.
  destruct currentState0; [congruence| |];
    face_cases i activeFace0; rewrite He; cbn; split_tests;
    repeat split; congruence.
Qed.

(** Once the window is 500 ms old, an iteration that still sees another
    face returns to the menu. *)
Lemma loop_closes_window (i : Input) (w : World) :
  currentState w <> STATE_MENU ->
  axisChangePending w = true ->
  differs (activeFace w) i ->
  AXIS_CHANGE_BUFFER_MS <= ulong32 (ulong32 (clock w + lag i) - axisChangeStartMs w) ->
  loop ulong32 i w = goToMenu (delay (lag i) w).
Proof.
  intros Hst Hp Hd He. unfold differs in Hd.
  open_world w. subst.
  apply Z.leb_le in He. rewrite <- Z.geb_leb in He.
  destruct currentState0; [congruence| |];
    face_cases i activeFace0; rewrite He; reflexivity.
Qed.

(** What [goToMenu] does to the state and the outputs. *)
Lemma goToMenu_effect (w : World) :
  let w' := goToMenu w in
  currentState w' = STATE_MENU /\
  activeFace w' = FACE_NONE /\
  axisChangePending w' = false /\
  ledPin w' = false /\ piezoPin w' = false /\ toneHz w' = 0 /\
  countdownRemainingSec w' = countdownRemainingSec w /\
  countdownTotalSec w' = countdownTotalSec w /\
  trace w' =
    (clock w, EvDrawMenu) :: (clock w, EvNoTone) ::
    (clock w, EvPiezo false) :: (clock w, EvLed false) :: trace w.
Proof. open_world w. repeat split. Qed.

Lemma window_expires (ins : list Input) :
  forall (w : World) (opened : Z),
    currentState w <> STATE_MENU ->
    axisChangePending w = true ->
    axisChangeStartMs w = ulong32 opened ->
    50 <= clock w - opened < 550 ->
    Forall (reoriented (activeFace w)) ins ->
    AXIS_CHANGE_BUFFER_MS <= clock w - opened - 50 + span ins ->
    exists pre i post,
      ins = pre ++ i :: post /\
      clock w - opened - 50 + span pre < AXIS_CHANGE_BUFFER_MS /\
      AXIS_CHANGE_BUFFER_MS <= clock w - opened - 50 + span (pre ++ [i]) /\
      back_in_menu (run ulong32 pre w) (loop ulong32 i (run ulong32 pre w)).
Proof.
  induction ins as [|i ins IH]; intros w opened Hst Hp Ha He Hall Hsp.
  - cbn in Hsp. unfold AXIS_CHANGE_BUFFER_MS in Hsp. lia.
  - inversion Hall as [|? ? [Hd Hl] Hrest]; subst.
    unfold MAX_LAG in Hl.
    assert (Hel : ulong32 (ulong32 (clock w + lag i) - axisChangeStartMs w)
                  = clock w + lag i - opened).
    { rewrite Ha. apply ulong32_elapsed. lia. }
    destruct (Z_lt_le_dec (clock w + lag i - opened) AXIS_CHANGE_BUFFER_MS)
      as [Hlt|Hge].
    + destruct (loop_keeps_window i w Hst Hp Hd) as (Hst' & Hf' & Hp' & Ha' & Hc').
      { rewrite Hel. exact Hlt. }
      destruct (IH (loop ulong32 i w) opened)
        as (pre & j & post & -> & Hpre & Hfire & Hm).
      * exact Hst'.
      * exact Hp'.
      * rewrite Ha'. exact Ha.
      * rewrite Hc'. unfold AXIS_CHANGE_BUFFER_MS in Hlt. lia.
      * rewrite Hf'. exact Hrest.
      * rewrite Hc'. cbn [span] in Hsp. lia.
      * exists (i :: pre), j, post. split; [reflexivity|].
        rewrite Hc' in Hpre, Hfire.
        split; [cbn [span]; lia|].
        split; [cbn [span app]; lia|exact Hm].
    + exists [], i, ins. split; [reflexivity|].
      split; [cbn [span]; unfold AXIS_CHANGE_BUFFER_MS; lia|].
      split; [cbn [span app]; unfold AXIS_CHANGE_BUFFER_MS in *; lia|].
      cbn [run].
      rewrite (loop_closes_window i w Hst Hp Hd) by (rewrite Hel; exact Hge).
      destruct (goToMenu_effect (delay (lag i) w))
        as (H1 & H2 & H3 & H4 & H5 & H6 & H7 & H8 & _).
      unfold back_in_menu. rewrite H7, H8.
      repeat split; try assumption; destruct w; reflexivity.
Qed.

(** C3 (amended). In the countdown or the alarm, with no window open, let
    the observed face differ from the active face at every iteration from
    [i0] on, for at least 500 ms from [i0] to the last one of [ins].  Then
    one of these iterations returns to the menu, the first at which 500 ms
    have passed since [i0]: the active face and the window are cleared, the
    LED and piezo pins are low and no tone plays.  The countdown's
    remaining and total seconds are left as they were. *)
Theorem sustained_reorientation (i0 : Input) (ins : list Input) (w : World) :
  currentState w <> STATE_MENU ->
  axisChangePending w = false ->
  Forall (reoriented (activeFace w)) (i0 :: ins) ->
  AXIS_CHANGE_BUFFER_MS <= span ins ->
  exists pre i post,
    ins = pre ++ i :: post /\
    span pre < AXIS_CHANGE_BUFFER_MS <= span (pre ++ [i]) /\
    back_in_menu (run ulong32 (i0 :: pre) w)
                 (loop ulong32 i (run ulong32 (i0 :: pre) w)).
Proof.
  intros Hst Hp Hall Hsp.
  inversion Hall as [|? ? [Hd Hl] Hrest]; subst.
  destruct (loop_opens_window i0 w Hst Hp Hd) as (Hst' & Hf' & Hp' & Ha' & Hc').
  destruct (window_expires ins (loop ulong32 i0 w) (clock w + lag i0))
    as (pre & j & post & -> & Hpre & Hfire & Hm).
  - exact Hst'.
  - exact Hp'.
  - exact Ha'.
  - rewrite Hc'. lia.
  - rewrite Hf'. exact Hrest.
  - rewrite Hc'. lia.
  - exists pre, j, post. split; [reflexivity|].
    rewrite Hc' in Hpre, Hfire.
    split; [lia|exact Hm].
Qed.

Lemma sustained_reorientation_witness :
  let w := loop ulong32 (rest_negY 0) (setup 0) in
  exists pre i post,
    repeat (rest_flat 0) 10 = pre ++ i :: post /\
    span pre < AXIS_CHANGE_BUFFER_MS <= span (pre ++ [i]) /\
    back_in_menu (run ulong32 (rest_flat 0 :: pre) w)
                 (loop ulong32 i (run ulong32 (rest_flat 0 :: pre) w)).
Proof.
  intros w.
  apply (sustained_reorientation (rest_flat 0) (repeat (rest_flat 0) 10) w).
  - vm_compute. discriminate.
  - vm_compute. reflexivity.
  - repeat constructor; (vm_compute; discriminate).
  - vm_compute. discriminate.
Defined.

(** C3, as stated, fails: after a countdown of 5 s is started and the
    device lies flat for 500 ms and more, the sketch is back in the menu
    with the outputs off, and the remaining seconds are still 5. *)
Lemma reorientation_keeps_remaining :
  let w := run ulong32 (rest_negY 0 :: repeat (rest_flat 0) 11) (setup 0) in
  currentState w = STATE_MENU /\ ledPin w = false /\ toneHz w = 0 /\
  countdownRemainingSec w <> 0.
Proof. vm_compute. repeat split; discriminate. Qed.

(** C5. In the countdown, with no window open, an iteration that sees
    another face followed by one that sees the active face again does not
    return to the menu: the first opens the window, the second clears it,
    whatever time has passed. *)
Theorem flicker_ignored (i1 i2 : Input) (w : World) :
  reachable w ->
  currentState w = STATE_COUNTDOWN ->
  axisChangePending w = false ->
  differs (activeFace w) i1 ->
  detectFace (accX i2) (accY i2) (accZ i2) = activeFace w ->
  let w1 := loop ulong32 i1 w in
  let w2 := loop ulong32 i2 w1 in
  currentState w1 <> STATE_MENU /\
  axisChangePending w1 = true /\
  currentState w2 <> STATE_MENU /\
  axisChangePending w2 = false /\
  activeFace w2 = activeFace w.
Proof.
  intros Hr Hst Hp Hd Hback w1 w2.
  destruct (reachable_invariant w Hr) as [[Hm|Hnone] _ _]; [congruence|].
  assert (Hst' : currentState w <> STATE_MENU) by congruence.
  destruct (loop_opens_window i1 w Hst' Hp Hd) as (H1 & H2 & H3 & _ & _).
  fold w1 in H1, H2, H3.
  split; [exact H1|]. split; [exact H3|].
  rewrite <- H2 in Hback, Hnone |- *.
  clearbody w1. clear - H1 Hback Hnone. subst w2.
  open_world w1.
  destruct currentState0; [congruence| |];
    rewrite Hback; destruct activeFace0; try congruence;
    cbn; split_tests; repeat split; congruence.
Qed.

Lemma flicker_ignored_witness :
  let w := loop ulong32 (rest_negY 0) (setup 0) in
  let w2 := loop ulong32 (rest_negY 0) (loop ulong32 (rest_flat 0) w) in
  currentState w2 <> STATE_MENU /\ axisChangePending w2 = false.
Proof.
  intros w w2.
  assert (Hr : reachable w).
  { apply reach_loop; [apply reach_setup; lia|simpl; lia]. }
  destruct (flicker_ignored (rest_flat 0) (rest_negY 0) w Hr)
    as (_ & _ & H1 & H2 & _).
  - vm_compute. reflexivity.
  - vm_compute. reflexivity.
  - vm_compute. discriminate.
  - vm_compute. reflexivity.
  - split; [exact H1|exact H2].
Defined.

(** *** The scenario: face -Y held from the menu *)

(** C4, as stated, fails: the countdown starts at clock 0 and its fifth
    one-second tick is iteration 101, which reads clock 5000; after it the
    remaining seconds are 0 and the sketch is still in the countdown, not
    in the alarm.  And the entry to the alarm, iteration 121, leaves the LED
    low as it was: the indicator does not toggle then. *)
Lemma scenario_alarm_not_at_zero :
  clock (held_negY 100) = 5000 /\
  countdownRemainingSec (held_negY 101) = 0 /\
  currentState (held_negY 101) <> STATE_ALARM /\
  ledPin (held_negY 120) = false /\
  currentState (held_negY 121) = STATE_ALARM /\
  ledPin (held_negY 121) = false.
Proof. vm_compute. repeat split; discriminate. Qed.

(** C4 (amended). With face -Y held from the menu and iterations 50 ms
    apart, the first iteration enters the countdown with a total of 5 s;
    the five one-second ticks, iterations 21, 41, 61, 81 and 101, bring the
    remaining seconds to 4, 3, 2, 1 and 0; the sketch stays in the
    countdown until the sixth one-second tick, iteration 121 at clock 6000,
    which enters the alarm.  The alarm writes the LED low at its entry and
    toggles it at 1000 ms (on) and 2000 ms (off) of the alarm; the first
    tone, started at the entry, is 659 Hz. *)
Theorem scenario_negY :
  currentState (held_negY 1) = STATE_COUNTDOWN /\
  countdownTotalSec (held_negY 1) = 5 /\
  countdownRemainingSec (held_negY 1) = 5 /\
  map (fun k => countdownRemainingSec (held_negY (20 * k + 1)))
      [1; 2; 3; 4; 5]%nat = [4; 3; 2; 1; 0] /\
  map (fun k => countdownRemainingSec (held_negY (20 * k)))
      [1; 2; 3; 4; 5]%nat = [5; 4; 3; 2; 1] /\
  currentState (held_negY 101) = STATE_COUNTDOWN /\
  currentState (held_negY 120) = STATE_COUNTDOWN /\
  clock (held_negY 120) = 6000 /\
  currentState (held_negY 121) = STATE_ALARM /\
  countdownRemainingSec (held_negY 121) = 0 /\
  tones (held_negY 121) = [(6000, 659)] /\
  led_writes (held_negY 161) =
    [(0, false); (0, false); (6000, false); (7000, true); (8000, false)].
Proof. vm_compute. repeat split. Qed.

(** *** The melody index *)

(** C10. [melody] and [noteDurations] have [NUM_NOTES] = 13 entries each.
    [startAlarm] sets the note index to 0, [updateAlarm] keeps it in
    [0 <= currentNoteIndex < NUM_NOTES], and in every reachable state it
    is in that range, so that [melody[currentNoteIndex]] and
    [noteDurations[currentNoteIndex]] are reads inside the arrays. *)
Theorem note_index_in_bounds :
  NUM_NOTES = 13 /\
  length melody = 13%nat /\
  length noteDurations = 13%nat /\
  (forall w : World, currentNoteIndex (startAlarm ulong32 w) = 0) /\
  (forall w : World,
      0 <= currentNoteIndex w < NUM_NOTES ->
      0 <= currentNoteIndex (updateAlarm ulong32 w) < NUM_NOTES) /\
  (forall w : World,
      reachable w ->
      0 <= currentNoteIndex w < NUM_NOTES /\
      nth_error melody (Z.to_nat (currentNoteIndex w))
        = Some (aread melody (currentNoteIndex w)) /\
      nth_error noteDurations (Z.to_nat (currentNoteIndex w))
        = Some (aread noteDurations (currentNoteIndex w))).
Proof.
  split; [reflexivity|]. split; [reflexivity|]. split; [reflexivity|].
  split; [|split].
  - intros w. open_world w. reflexivity.
  - intros w Hn. unfold_constants. open_world w.
    destruct currentState0; cbn; try exact Hn;
      split_tests; tests_to_prop; unfold_constants; lia.
  - intros w Hr. destruct (reachable_invariant w Hr) as [_ _ Hn].
    split; [exact Hn|].
    unfold_constants. unfold aread.
    assert (Hlt : (Z.to_nat (currentNoteIndex w) < 13)%nat) by lia.
    split; apply nth_error_nth'; exact Hlt.
Qed.

Lemma note_index_in_bounds_witness :
  0 <= currentNoteIndex (held_negY 253) < NUM_NOTES /\
  0 <= currentNoteIndex (updateAlarm ulong32 (held_negY 253)) < NUM_NOTES.
Proof.
  destruct note_index_in_bounds as (_ & _ & _ & _ & Hstep & Hreach).
  assert (Hr : reachable (held_negY 253)).
  { apply reachable_run; [apply reach_setup; lia|].
    apply Forall_forall. intros i Hi.
    apply repeat_spec in Hi. subst i. simpl. lia. }
  destruct (Hreach _ Hr) as (Hn & _).
  split; [exact Hn|apply Hstep; exact Hn].
Defined.

(** *** The alarm sequencer *)

Lemma run_app (ulong : Z -> Z) (xs ys : list Input) (w : World) :
  run ulong (xs ++ ys) w = run ulong ys (run ulong xs w).
Proof. revert w. induction xs as [|x xs IH]; intros w; cbn; [reflexivity|apply IH]. Qed.

Lemma melody_positive (n : Z) : 0 <= n < 13 -> 0 < aread melody n.
Proof.
  intros Hn. unfold aread.
  assert (Hk : (Z.to_nat n < 13)%nat) by lia.
  revert Hk. generalize (Z.to_nat n). intros k Hk.
  do 13 (destruct k as [|k]; [cbn; lia|]). lia.
Qed.

(** One iteration of the alarm that does not return to the menu: the
    blink clock. *)
Lemma alarm_blink_step (i : Input) (w : World) :
  currentState w = STATE_ALARM ->
  currentState (loop ulong32 i w) = STATE_ALARM ->
  let now := ulong32 (clock w + lag i) in
  let w' := loop ulong32 i w in
  (lastAlarmToggleMs w', alarmOutputState w')
    = blink_step now (lastAlarmToggleMs w, alarmOutputState w) /\
  ledPin w' = (if ulong32 (now - lastAlarmToggleMs w) >=? 1000
               then negb (alarmOutputState w) else ledPin w) /\
  activeFace w' = activeFace w /\
  clock w' = clock w + lag i + 50.
Proof.
  intros Hst Hst' now w'. subst now w'.
  unfold blink_step.
  open_world w. subst. unfold_constants. revert Hst'.
  split_tests; intros Hst'; try discriminate Hst';
    repeat split; reflexivity.
Qed.

(** The same iteration: the melody clock. *)
Lemma alarm_melody_step (i : Input) (w : World) :
  currentState w = STATE_ALARM ->
  currentState (loop ulong32 i w) = STATE_ALARM ->
  0 <= currentNoteIndex w < NUM_NOTES ->
  let now := ulong32 (clock w + lag i) in
  let w' := loop ulong32 i w in
  (currentNoteIndex w', noteStartMs w')
    = melody_step now (currentNoteIndex w, noteStartMs w) /\
  toneHz w' = (if ulong32 (now - noteStartMs w) >=? aread noteDurations (currentNoteIndex w)
               then aread melody (currentNoteIndex w') else toneHz w).
Proof.
  intros Hst Hst' Hn now w'. subst now w'.
  unfold melody_step.
  open_world w. subst. unfold_constants. revert Hst'.
  pose proof (melody_positive 0) as Hm0.
  pose proof (melody_positive (currentNoteIndex0 + 1)) as Hm1.
  split_tests; intros Hst'; try discriminate Hst'; tests_to_prop;
    repeat split; try reflexivity; try lia; try (exfalso; lia).
  all: first [ replace currentNoteIndex0 with 12 by lia; reflexivity
             | rewrite Z.mod_small by lia; reflexivity ].
Qed.

(** An iteration of the alarm that sees the active face stays in the
    alarm. *)
Lemma alarm_stays (i : Input) (w : World) :
  currentState w = STATE_ALARM ->
  activeFace w <> FACE_NONE ->
  detectFace (accX i) (accY i) (accZ i) = activeFace w ->
  currentState (loop ulong32 i w) = STATE_ALARM.
Proof.
  intros Hst Hnone Hf. open_world w. subst.
  destruct (detectFace (accX i) (accY i) (accZ i)); try congruence;
    cbn; split_tests; reflexivity.
Qed.

(** With the active face in view and iterations 50 ms apart, the blink
    clock stays as it is as long as less than 1000 ms have passed since
    the time [toggled] of its last toggle. *)
Lemma blink_quiet (ins : list Input) :
  forall (w : World) (toggled : Z),
    Forall (steady (activeFace w)) ins ->
    activeFace w <> FACE_NONE ->
    currentState w = STATE_ALARM ->
    lastAlarmToggleMs w = ulong32 toggled ->
    0 <= clock w - toggled ->
    clock w - toggled + 50 * Z.of_nat (length ins) <= 1000 ->
    let w' := run ulong32 ins w in
    currentState w' = STATE_ALARM /\
    activeFace w' = activeFace w /\
    lastAlarmToggleMs w' = lastAlarmToggleMs w /\
    alarmOutputState w' = alarmOutputState w /\
    ledPin w' = ledPin w /\
    clock w' = clock w + 50 * Z.of_nat (length ins).
Proof.
  induction ins as [|i ins IH]; intros w toggled Hall Hnone Hst Ha H0 Hlen.
  - cbn. repeat split; try reflexivity; try assumption; lia.
  - inversion Hall as [|? ? [Hf Hl] Hrest]; subst.
    cbn [length] in Hlen. rewrite Nat2Z.inj_succ in Hlen.
    pose proof (alarm_stays i w Hst Hnone Hf) as Hst'.
    destruct (alarm_blink_step i w Hst Hst') as (Hb & Hled & Hface & Hclk).
    rewrite Hl, Z.add_0_r in Hb, Hled, Hclk.
    unfold blink_step in Hb.
    rewrite Ha, ulong32_elapsed in Hb, Hled by lia.
    assert (Hq : (clock w - toggled >=? 1000) = false).
    { rewrite Z.geb_leb. apply Z.leb_gt. lia. }
    rewrite Hq in Hb, Hled. injection Hb as Hb1 Hb2.
    destruct (IH (loop ulong32 i w) toggled) as (I1 & I2 & I3 & I4 & I5 & I6).
    + rewrite Hface. exact Hrest.
    + rewrite Hface. exact Hnone.
    + exact Hst'.
    + exact Hb1.
    + rewrite Hclk. lia.
    + rewrite Hclk. lia.
    + cbn [run length]. rewrite Nat2Z.inj_succ.
      rewrite I1, I2, I3, I4, I5, I6, Hface, Hb1, Hb2, Hled, Hclk, Ha.
      repeat split; try reflexivity; lia.
Qed.

(** With the active face in view and iterations 50 ms apart, the LED
    toggles at the twentieth iteration after a toggle (or after the entry
    to the alarm), 1000 ms later, and not before; the state it reaches
    satisfies the same conditions again. *)
Lemma blink_period_20 (pre : list Input) (i : Input) (w : World) :
  length pre = 19%nat ->
  Forall (steady (activeFace w)) (pre ++ [i]) ->
  activeFace w <> FACE_NONE ->
  currentState w = STATE_ALARM ->
  lastAlarmToggleMs w = ulong32 (clock w - 50) ->
  (forall p q, pre = p ++ q ->
               alarmOutputState (run ulong32 p w) = alarmOutputState w) /\
  let w' := run ulong32 (pre ++ [i]) w in
  alarmOutputState w' = negb (alarmOutputState w) /\
  ledPin w' = negb (alarmOutputState w) /\
  clock w' = clock w + 1000 /\
  currentState w' = STATE_ALARM /\
  activeFace w' = activeFace w /\
  lastAlarmToggleMs w' = ulong32 (clock w' - 50).
Proof.
  intros Hlen Hall Hnone Hst Ha.
  apply Forall_app in Hall. destruct Hall as [Hpre Hi].
  inversion Hi as [|? ? [Hf Hl] _]; subst.
  split.
  - intros p q ->. apply Forall_app in Hpre. destruct Hpre as [Hp _].
    rewrite length_app in Hlen.
    destruct (blink_quiet p w (clock w - 50) Hp Hnone Hst Ha) as (_ & _ & _ & H & _);
      [lia|lia|exact H].
  - destruct (blink_quiet pre w (clock w - 50) Hpre Hnone Hst Ha)
      as (I1 & I2 & I3 & I4 & I5 & I6); [lia|lia|].
    rewrite Hlen in I6. cbv zeta. rewrite run_app. cbn [run].
    set (w1 := run ulong32 pre w) in *.
    rewrite <- I2 in Hf.
    assert (Hnone1 : activeFace w1 <> FACE_NONE) by (rewrite I2; exact Hnone).
    pose proof (alarm_stays i w1 I1 Hnone1 Hf) as Hst'.
    destruct (alarm_blink_step i w1 I1 Hst') as (Hb & Hled & Hface & Hclk).
    rewrite Hl, Z.add_0_r in Hb, Hled, Hclk.
    unfold blink_step in Hb.
    rewrite I3, Ha, ulong32_elapsed in Hb, Hled by lia.
    assert (Hq : (clock w1 - (clock w - 50) >=? 1000) = true).
    { rewrite Z.geb_leb. apply Z.leb_le. lia. }
    rewrite Hq in Hb, Hled. injection Hb as Hb1 Hb2.
    rewrite Hb1, Hb2, Hled, Hface, Hclk, I2, I4.
    repeat split; try reflexivity; try assumption; try lia.
    f_equal. lia.
Qed.

(** C8, as stated, fails: with iterations 70 ms apart (a lag of 20 ms on
    top of [delay(50)]) the LED is toggled 1050 ms after the entry to the
    alarm and again 1050 ms later, not every 1000 ms. *)
Lemma blink_period_not_exact :
  led_writes (run ulong32 (repeat (rest_negY 20) 130) (setup 0)) =
    [(0, false); (0, false); (6320, false); (7370, true); (8420, false)].
Proof. vm_compute. reflexivity. Qed.

(** C8 (amended). In an iteration of the alarm that does not return to the
    menu, the blink clock and the melody clock each advance as a function
    of their own state and of the reading of [millis]: the LED toggles
    when at least 1000 ms have passed since its last toggle, whatever the
    note index and the note durations; the note index moves to the next
    note, from note 12 back to note 0, when the current note's duration
    has passed, whatever the blink state.  Stepping the index from note 0
    visits the 13 notes in order and returns to note 0.  With iterations
    exactly 50 ms apart the LED toggles every 1000 ms exactly; with the
    face -Y held, two rounds of the melody play in order, followed by
    note 0 again. *)
Theorem alarm_sequencer :
  (forall (i : Input) (w : World),
      currentState w = STATE_ALARM ->
      currentState (loop ulong32 i w) = STATE_ALARM ->
      0 <= currentNoteIndex w < NUM_NOTES ->
      let now := ulong32 (clock w + lag i) in
      let w' := loop ulong32 i w in
      (lastAlarmToggleMs w', alarmOutputState w')
        = blink_step now (lastAlarmToggleMs w, alarmOutputState w) /\
      (currentNoteIndex w', noteStartMs w')
        = melody_step now (currentNoteIndex w, noteStartMs w)) /\
  map (fun k => Nat.iter k (fun n => (n + 1) mod 13) 0) (seq 0 14)
    = [0; 1; 2; 3; 4; 5; 6; 7; 8; 9; 10; 11; 12; 0] /\
  (forall (pre : list Input) (i : Input) (w : World),
      length pre = 19%nat ->
      Forall (steady (activeFace w)) (pre ++ [i]) ->
      activeFace w <> FACE_NONE ->
      currentState w = STATE_ALARM ->
      lastAlarmToggleMs w = ulong32 (clock w - 50) ->
      (forall p q, pre = p ++ q ->
                   alarmOutputState (run ulong32 p w) = alarmOutputState w) /\
      let w' := run ulong32 (pre ++ [i]) w in
      alarmOutputState w' = negb (alarmOutputState w) /\
      ledPin w' = negb (alarmOutputState w) /\
      clock w' = clock w + 1000 /\
      currentState w' = STATE_ALARM /\
      activeFace w' = activeFace w /\
      lastAlarmToggleMs w' = ulong32 (clock w' - 50)) /\
  map snd (tones (held_negY 253)) = melody ++ melody ++ [659].
Proof.
  split; [|split; [|split]].
  - intros i w Hst Hst' Hn now w'.
    destruct (alarm_blink_step i w Hst Hst') as (Hb & _).
    destruct (alarm_melody_step i w Hst Hst' Hn) as (Hm & _).
    split; [exact Hb|exact Hm].
  - vm_compute. reflexivity.
  - exact blink_period_20.
  - vm_compute. reflexivity.
Qed.

Lemma alarm_sequencer_witness :
  let w := held_negY 121 in
  let w' := run ulong32 (repeat (rest_negY 0) 19 ++ [rest_negY 0]) w in
  currentState w = STATE_ALARM /\
  alarmOutputState w' = negb (alarmOutputState w) /\
  clock w' = clock w + 1000.
Proof.
  intros w w'.
  destruct alarm_sequencer as (_ & _ & H & _).
  destruct (H (repeat (rest_negY 0) 19) (rest_negY 0) w)
    as (_ & H1 & _ & H2 & _).
  - reflexivity.
  - repeat constructor; vm_compute; reflexivity.
  - vm_compute. discriminate.
  - vm_compute. reflexivity.
  - vm_compute. reflexivity.
  - split; [vm_compute; reflexivity|]. split; [exact H1|exact H2].
Defined.

(** *** Wraparound of the millisecond clock *)

Lemma durations_bound (n : Z) :
  0 <= n < 13 -> 0 < aread noteDurations n <= 600.
Proof.
  intros Hn. unfold aread.
  assert (Hk : (Z.to_nat n < 13)%nat) by lia.
  revert Hk. generalize (Z.to_nat n). intros k Hk.
  do 13 (destruct k as [|k]; [cbn; lia|]). lia.
Qed.

Lemma same_behaviour_setup (t0 : Z) : same_behaviour (setup t0) (setup t0).
Proof. split; reflexivity. Qed.

Lemma fresh_setup (t0 : Z) : fresh (setup t0).
Proof. split; cbn; unfold_constants; (lia || discriminate). Qed.

Arguments unbounded z /.

(** Rewrites the [unsigned long] differences met in the tests into the
    true elapsed times. *)
Ltac true_elapsed :=
  repeat match goal with
         | H : context [ulong32 (ulong32 ?a - ulong32 ?b)] |- _ =>
             rewrite (ulong32_elapsed a b) in H by (unfold MAX_LAG in *; lia)
         end.

Ltac close_step :=
  split; cbn; intros;
  first [ reflexivity | congruence | lia | (exfalso; lia) ].

Lemma same_behaviour_loop (i : Input) (real ideal : World) :
  0 <= lag i <= MAX_LAG ->
  same_behaviour real ideal ->
  fresh ideal ->
  same_behaviour (loop ulong32 i real) (loop unbounded i ideal) /\
  fresh (loop unbounded i ideal).
Proof.
  intros Hl Hsb Hf.
  destruct Hf as [Hn Htick Htoggle Hbegan Hwin].
  destruct Hsb. unfold_constants.
  pose proof (durations_bound (currentNoteIndex ideal) Hn) as Hd.
  open_world ideal. open_world real. subst.
  destruct currentState0; [ | | ].
  - cbn. split_tests; unfold_constants; split; close_step.
  - specialize (Htick eq_refl). clear Htoggle Hbegan.
    destruct axisChangePending0;
      [specialize (Hwin eq_refl)|clear Hwin]; cbn;
      split_tests; tests_to_prop; unfold_constants; true_elapsed;
      split; close_step.
  - specialize (Htoggle eq_refl). specialize (Hbegan eq_refl). clear Htick.
    destruct axisChangePending0;
      [specialize (Hwin eq_refl)|clear Hwin]; cbn;
      split_tests; tests_to_prop; unfold_constants; true_elapsed;
      split; close_step.
Qed.

Lemma same_behaviour_run (ins : list Input) :
  forall real ideal : World,
    Forall (fun i => 0 <= lag i <= MAX_LAG) ins ->
    same_behaviour real ideal ->
    fresh ideal ->
    same_behaviour (run ulong32 ins real) (run unbounded ins ideal) /\
    fresh (run unbounded ins ideal).
Proof.
  induction ins as [|i ins IH]; intros real ideal Hall Hsb Hf.
  - cbn. split; assumption.
  - inversion Hall as [|? ? Hl Hrest]; subst.
    destruct (same_behaviour_loop i real ideal Hl Hsb Hf) as [Hsb' Hf'].
    cbn [run]. apply IH; assumption.
Qed.

(** C9. Every elapsed-time test of the sketch (countdown tick, LED toggle,
    note advance, debounce window) compares [elapsed now anchor], the
    [unsigned long] difference of two readings of [millis], with its
    threshold, and that difference is the true time between the readings
    as long as it is below 2^32 ms.  Hence, when each iteration starts at
    most [MAX_LAG] = 2^32 - 1050 ms (more than 49 days) after the end of
    the previous one, the sketch run from [setup] with the 32-bit clock
    goes through the same states, pin levels and calls, at the same
    times, as the sketch run with an unbounded clock, wherever the 32-bit
    clock wraps. *)
Theorem wraparound_safe (t0 : Z) (ins : list Input) :
  Forall (fun i => 0 <= lag i <= MAX_LAG) ins ->
  (forall a b : Z, 0 <= a - b < 2 ^ 32 ->
                   elapsed ulong32 (ulong32 a) (ulong32 b) = a - b) /\
  same_behaviour (run ulong32 ins (setup t0)) (run unbounded ins (setup t0)).
Proof.
  intros Hall. split.
  - intros a b Hab. cbn. apply ulong32_elapsed. exact Hab.
  - apply same_behaviour_run; [exact Hall|apply same_behaviour_setup|apply fresh_setup].
Qed.

Lemma wraparound_safe_witness :
  let ins := repeat (rest_negY 0) 200 in
  let real := run ulong32 ins (setup (2 ^ 32 - 3000)) in
  let ideal := run unbounded ins (setup (2 ^ 32 - 3000)) in
  clock real = 2 ^ 32 + 7000 /\
  currentState real = STATE_ALARM /\
  same_behaviour real ideal.
Proof.
  intros ins real ideal.
  split; [vm_compute; reflexivity|].
  split; [vm_compute; reflexivity|].
  apply (wraparound_safe (2 ^ 32 - 3000) ins).
  apply Forall_forall. intros i Hi.
  apply repeat_spec in Hi. subst i. vm_compute. split; discriminate.
Defined.

(** ** Further properties of the control loop *)

(** *** Consistency of the session, the outputs and the trace *)

Ltac open_named w :=
  destruct w as [clk st af tot rem lbl tick rot tog lvl pend win idx beg
                 led pz hz tr];
  cbn in *.

Lemma reachable_held_negY (n : nat) : reachable (held_negY n).
Proof.
  apply reachable_run; [apply reach_setup; lia|].
  apply Forall_forall. intros i Hi.
  apply repeat_spec in Hi. subst i. simpl. lia.
Qed.

Lemma session_consistent_setup (t0 : Z) : session_consistent (setup t0).
Proof. split; cbn; congruence. Qed.

Lemma session_consistent_loop (i : Input) (w : World) :
  session_consistent w -> session_consistent (loop ulong32 i w).
Proof.
  intros [Hmf Hmw Ht Hr Hl].
  open_named w.
  destruct st; cbn; split_tests;
    split; cbn; intros; try congruence; try reflexivity;
    first [ apply Ht | apply Hr | apply Hl ]; discriminate.
Qed.

Lemma reachable_session (w : World) : reachable w -> session_consistent w.
Proof.
  induction 1; [apply session_consistent_setup|apply session_consistent_loop; assumption].
Qed.

Lemma outputs_consistent_setup (t0 : Z) : outputs_consistent (setup t0).
Proof. split; cbn; congruence. Qed.

Lemma outputs_consistent_loop (i : Input) (w : World) :
  0 <= currentNoteIndex w < NUM_NOTES ->
  outputs_consistent w -> outputs_consistent (loop ulong32 i w).
Proof.
  intros Hn [Hp Hl0 Ht0 Hl Ht]. unfold_constants.
  pose proof (melody_positive 0) as Hm0.
  pose proof (melody_positive (currentNoteIndex w + 1)) as Hm1.
  open_named w.
  destruct st; cbn; split_tests; tests_to_prop;
    split; cbn; intros; try congruence; try reflexivity;
    try (exfalso; lia);
    first [ apply Hl0 | apply Ht0 | apply Hl | apply Ht ];
    congruence.
Qed.

Lemma reachable_outputs (w : World) : reachable w -> outputs_consistent w.
Proof.
  induction 1 as [t0 H0|i w Hr IH Hl].
  - apply outputs_consistent_setup.
  - apply outputs_consistent_loop; [|exact IH].
    apply (inv_note w (reachable_invariant w Hr)).
Qed.

Lemma faceRotation_range (f : Face) : 0 <= faceRotation f <= 3.
Proof. destruct f; cbn; lia. Qed.

Lemma faceDuration_range (f : Face) : 0 <= faceDuration f <= 30.
Proof. destruct f; cbn; lia. Qed.

Lemma aread_melody_In (n : Z) : 0 <= n < 13 -> In (aread melody n) melody.
Proof.
  intros Hn. unfold aread. apply nth_In.
  change (length melody) with 13%nat. lia.
Qed.

Lemma stamps_ordered_weaken (tr : list (Z * Event)) (b b' : Z) :
  b <= b' -> stamps_ordered b tr -> stamps_ordered b' tr.
Proof.
  destruct tr as [|[t e] tr]; cbn; [trivial|].
  intros Hb [Ht Hrest]. split; [lia|exact Hrest].
Qed.

Lemma trace_consistent_setup (t0 : Z) : trace_consistent (setup t0).
Proof.
  split; cbn.
  - repeat constructor.
  - repeat split; lia.
Qed.

Lemma trace_consistent_loop (i : Input) (w : World) :
  0 <= lag i ->
  invariant w ->
  session_consistent w ->
  trace_consistent w -> trace_consistent (loop ulong32 i w).
Proof.
  intros Hlag [_ Hrem Hn] [_ _ Htot Hrot _] [Hev Hst]. unfold_constants.
  pose proof (aread_melody_In 0) as Hm0.
  pose proof (aread_melody_In (currentNoteIndex w + 1)) as Hm1.
  pose proof (faceRotation_range (activeFace w)) as Hr3.
  pose proof (faceDuration_range (activeFace w)) as Hd30.
  open_named w.
  assert (Hst' : stamps_ordered (clk + lag i) tr)
    by (apply stamps_ordered_weaken with (2 := Hst); lia).
  destruct st; cbn;
    try (rewrite Htot in * by discriminate);
    try (rewrite Hrot in * by discriminate);
    split_tests; tests_to_prop; split; cbn;
    repeat (apply Forall_cons; cbn [event_ok snd]);
    unfold_constants;
    repeat match goal with |- _ /\ _ => split end;
    first [ exact Hev | exact Hst' | exact I | reflexivity | lia
          | apply Hm0; lia | apply Hm1; lia
          | apply stamps_ordered_weaken with (2 := Hst); lia ].
Qed.

Lemma reachable_trace (w : World) : reachable w -> trace_consistent w.
Proof.
  induction 1 as [t0 H0|i w Hr IH Hl].
  - apply trace_consistent_setup.
  - apply trace_consistent_loop;
      [exact Hl|apply reachable_invariant, Hr|apply reachable_session, Hr|exact IH].
Qed.

(** X1. In every reachable state the active face is [FACE_NONE] exactly
    when the sketch is in the menu, and in the menu no debounce window is
    pending. *)
Theorem active_face_iff_session (w : World) :
  reachable w ->
  (activeFace w = FACE_NONE <-> currentState w = STATE_MENU) /\
  (currentState w = STATE_MENU -> axisChangePending w = false).
Proof.
  intros Hr.
  destruct (reachable_session w Hr) as [Hmf Hmw _ _ _].
  destruct (reachable_invariant w Hr) as [Hf _ _].
  split; [split|exact Hmw].
  - intros Hnone. destruct Hf as [Hm|Hne]; [exact Hm|contradiction].
  - exact Hmf.
Qed.

Lemma active_face_iff_session_witness :
  activeFace (held_negY 30) <> FACE_NONE /\
  currentState (held_negY 30) <> STATE_MENU.
Proof.
  destruct (active_face_iff_session (held_negY 30) (reachable_held_negY 30))
    as [[H1 H2] _].
  assert (Hs : currentState (held_negY 30) <> STATE_MENU)
    by (vm_compute; discriminate).
  split; [|exact Hs].
  intros Hn. apply Hs, H1, Hn.
Defined.

(** X2. In every reachable state outside the menu, the total of the
    countdown, the rotation of the display and the axis label are those
    that [loop] passes to [startCountdown] for the active face; so the
    total is 5, 10, 15 or 30, the remaining seconds are at most 30 and the
    rotation is one of 0..3. *)
Theorem session_parameters (w : World) :
  reachable w ->
  currentState w <> STATE_MENU ->
  countdownTotalSec w = faceDuration (activeFace w) /\
  countdownRotation w = faceRotation (activeFace w) /\
  countdownAxisLabel w = faceLabel (activeFace w) /\
  In (countdownTotalSec w) [5; 10; 15; 30] /\
  0 <= countdownRemainingSec w <= 30 /\
  0 <= countdownRotation w <= 3.
Proof.
  intros Hr Hst.
  destruct (reachable_session w Hr) as [_ _ Ht Hrot Hl].
  destruct (reachable_invariant w Hr) as [Hf Hrem _].
  specialize (Ht Hst). specialize (Hrot Hst). specialize (Hl Hst).
  destruct Hf as [Hm|Hne]; [contradiction|].
  pose proof (faceDuration_range (activeFace w)).
  pose proof (faceRotation_range (activeFace w)).
  repeat split; try assumption; try lia.
  rewrite Ht. destruct (activeFace w); cbn; auto; contradiction.
Qed.

Lemma session_parameters_witness :
  countdownTotalSec (held_negY 30) = 5 /\
  countdownRotation (held_negY 30) = 0.
Proof.
  destruct (session_parameters (held_negY 30) (reachable_held_negY 30))
    as (H1 & H2 & _).
  - vm_compute. discriminate.
  - split; [exact H1|exact H2].
Defined.

(** X3. In every reachable state the piezo pin is low, and outside the
    alarm the LED is low and no tone is playing: the outputs are only
    active in the alarm. *)
Theorem outputs_quiet_outside_alarm (w : World) :
  reachable w ->
  piezoPin w = false /\
  (currentState w <> STATE_ALARM -> ledPin w = false /\ toneHz w = 0).
Proof.
  intros Hr. destruct (reachable_outputs w Hr) as [Hp Hl Ht _ _].
  split; [exact Hp|]. intros Hst. split; [apply Hl|apply Ht]; exact Hst.
Qed.

Lemma outputs_quiet_outside_alarm_witness :
  ledPin (held_negY 30) = false /\ toneHz (held_negY 30) = 0.
Proof.
  destruct (outputs_quiet_outside_alarm (held_negY 30) (reachable_held_negY 30))
    as [_ H].
  apply H. vm_compute. discriminate.
Defined.

(** X4. In every reachable alarm state the LED pin shows
    [alarmOutputState] and the tone that plays is the current note of the
    melody, a positive frequency. *)
Theorem alarm_outputs_follow_state (w : World) :
  reachable w ->
  currentState w = STATE_ALARM ->
  ledPin w = alarmOutputState w /\
  toneHz w = aread melody (currentNoteIndex w) /\
  0 < toneHz w.
Proof.
  intros Hr Hst. destruct (reachable_outputs w Hr) as [_ _ _ Hl Ht].
  destruct (reachable_invariant w Hr) as [_ _ Hn].
  split; [apply Hl, Hst|]. split; [apply Ht, Hst|].
  rewrite (Ht Hst). apply melody_positive. exact Hn.
Qed.

Lemma alarm_outputs_follow_state_witness :
  toneHz (held_negY 150) = aread melody (currentNoteIndex (held_negY 150)) /\
  currentNoteIndex (held_negY 150) = 6.
Proof.
  destruct (alarm_outputs_follow_state (held_negY 150) (reachable_held_negY 150))
    as (_ & H & _).
  - vm_compute. reflexivity.
  - split; [exact H|vm_compute; reflexivity].
Defined.

(** X5. In every reachable state, every call recorded in the trace is one
    the sketch can issue (the piezo pin written low, a tone of the melody,
    a countdown screen showing 0 to 30 seconds, a rotation in 0..3), and
    the calls are stamped with times that never decrease and never exceed
    the clock. *)
Theorem trace_well_formed (w : World) :
  reachable w ->
  Forall (fun te => event_ok (snd te)) (trace w) /\
  stamps_ordered (clock w) (trace w).
Proof.
  intros Hr. destruct (reachable_trace w Hr) as [He Hs].
  split; [exact He|exact Hs].
Qed.

Lemma trace_well_formed_witness :
  Forall (fun te => event_ok (snd te)) (trace (held_negY 150)).
Proof.
  destruct (trace_well_formed (held_negY 150) (reachable_held_negY 150))
    as [H _].
  exact H.
Defined.

(** *** Transitions *)

(** X6. The transitions of one iteration of [loop]: from the menu the
    sketch stays in the menu when no face is detected and enters the
    countdown otherwise, never the alarm; from the alarm it stays in the
    alarm or returns to the menu, never to the countdown; and the alarm is
    entered from the countdown only. *)
Theorem transitions_allowed (i : Input) (w : World) :
  let w' := loop ulong32 i w in
  (currentState w = STATE_MENU ->
   currentState w' =
     match detectFace (accX i) (accY i) (accZ i) with
     | FACE_NONE => STATE_MENU
     | _ => STATE_COUNTDOWN
     end) /\
  (currentState w = STATE_ALARM ->
   currentState w' = STATE_ALARM \/ currentState w' = STATE_MENU) /\
  (currentState w' = STATE_ALARM ->
   currentState w = STATE_COUNTDOWN \/ currentState w = STATE_ALARM).
Proof.
  intros w'. subst w'. open_named w.
  destruct st; cbn; split_tests; repeat split; intros;
    try discriminate; try reflexivity; auto.
Qed.

Lemma transitions_allowed_witness :
  currentState (loop ulong32 (rest_flat 0) (setup 0)) = STATE_MENU /\
  currentState (loop ulong32 (rest_negY 0) (setup 0)) = STATE_COUNTDOWN.
Proof.
  split.
  - destruct (transitions_allowed (rest_flat 0) (setup 0)) as (H & _).
    apply H. reflexivity.
  - destruct (transitions_allowed (rest_negY 0) (setup 0)) as (H & _).
    apply H. reflexivity.
Defined.

(** The test [currentFace == activeFace && currentFace != FACE_NONE] of
    [loop], when an active face is set. *)
Lemma same_face_test (cf af : Face) :
  af <> FACE_NONE ->
  (Face_eqb cf af && negb (Face_eqb cf FACE_NONE) = true <-> cf = af).
Proof. destruct cf, af; cbn; intuition congruence. Qed.

(** X7. Outside the menu, an iteration of [loop] returns to the menu if
    and only if a debounce window is open, the detected face is not the
    active face, and at least 500 ms (as an [unsigned long] difference)
    have passed since the window opened.  That iteration is [goToMenu]
    alone, without the [delay(50)] that ends every other iteration. *)
Theorem menu_return_only_by_debounce (i : Input) (w : World) :
  reachable w ->
  currentState w <> STATE_MENU ->
  let w' := loop ulong32 i w in
  (currentState w' = STATE_MENU <->
   axisChangePending w = true /\
   differs (activeFace w) i /\
   AXIS_CHANGE_BUFFER_MS
     <= ulong32 (ulong32 (clock w + lag i) - axisChangeStartMs w)) /\
  (currentState w' = STATE_MENU ->
   w' = goToMenu (delay (lag i) w) /\ clock w' = clock w + lag i) /\
  (currentState w' <> STATE_MENU -> clock w' = clock w + lag i + 50).
Proof.
  intros Hr Hst w'. subst w'. unfold differs.
  destruct (reachable_invariant w Hr) as [[Hm|Hne] _ _]; [contradiction|].
  pose proof (same_face_test (detectFace (accX i) (accY i) (accZ i))
                (activeFace w) Hne) as Hft.
  clear Hr. open_named w.
  destruct st; [contradiction| |]; destruct pend; cbn;
    split_tests; tests_to_prop; unfold_constants;
    repeat split; intros;
    repeat match goal with H : _ /\ _ |- _ => destruct H end;
    try discriminate; try reflexivity; try lia;
    try (exfalso; intuition congruence);
    try (intros E; apply Hft in E; discriminate E).
Qed.

Lemma menu_return_only_by_debounce_witness :
  currentState (loop ulong32 (rest_flat 0) (held_negY 30)) <> STATE_MENU /\
  clock (loop ulong32 (rest_flat 0) (held_negY 30)) = clock (held_negY 30) + 50.
Proof.
  destruct (menu_return_only_by_debounce (rest_flat 0) (held_negY 30)
              (reachable_held_negY 30)) as (_ & _ & H).
  - vm_compute. discriminate.
  - assert (Hs : currentState (loop ulong32 (rest_flat 0) (held_negY 30))
                 <> STATE_MENU) by (vm_compute; discriminate).
    split; [exact Hs|]. rewrite (H Hs). vm_compute. reflexivity.
Defined.

(** X8. In the menu, an iteration of [loop] that detects no face (the
    device flat, tilted or moving) only lets time pass: no global changes
    and no call is issued. *)
Theorem menu_idle (i : Input) (w : World) :
  reachable w ->
  currentState w = STATE_MENU ->
  detectFace (accX i) (accY i) (accZ i) = FACE_NONE ->
  loop ulong32 i w = delay 50 (delay (lag i) w).
Proof.
  intros Hr Hst Hf.
  destruct (reachable_session w Hr) as [Hmf Hmw _ _ _].
  specialize (Hmf Hst). specialize (Hmw Hst).
  open_named w. subst. rewrite Hf. reflexivity.
Qed.

Lemma menu_idle_witness :
  loop ulong32 (rest_flat 7) (setup 0) = delay 50 (delay 7 (setup 0)).
Proof.
  apply (menu_idle (rest_flat 7) (setup 0)).
  - apply reach_setup. lia.
  - reflexivity.
  - vm_compute. reflexivity.
Defined.

(** *** The countdown at 50 ms polling *)

(** An iteration of the countdown that sees the active face. *)
Lemma countdown_step (i : Input) (w : World) :
  currentState w = STATE_COUNTDOWN ->
  activeFace w <> FACE_NONE ->
  detectFace (accX i) (accY i) (accZ i) = activeFace w ->
  let gone := ulong32 (ulong32 (clock w + lag i) - lastCountdownTick w) in
  let w' := loop ulong32 i w in
  activeFace w' = activeFace w /\
  clock w' = clock w + lag i + 50 /\
  countdownTotalSec w' = countdownTotalSec w /\
  (gone < 1000 ->
   currentState w' = STATE_COUNTDOWN /\
   countdownRemainingSec w' = countdownRemainingSec w /\
   lastCountdownTick w' = lastCountdownTick w) /\
  (1000 <= gone -> 0 < countdownRemainingSec w ->
   currentState w' = STATE_COUNTDOWN /\
   countdownRemainingSec w' = countdownRemainingSec w - 1 /\
   lastCountdownTick w' = ulong32 (clock w + lag i)) /\
  (1000 <= gone -> countdownRemainingSec w <= 0 ->
   currentState w' = STATE_ALARM /\
   countdownRemainingSec w' = countdownRemainingSec w /\
   lastAlarmToggleMs w' = ulong32 (clock w + lag i) /\
   noteStartMs w' = ulong32 (clock w + lag i) /\
   currentNoteIndex w' = 0 /\
   alarmOutputState w' = false).
Proof.
  intros Hst Hnone Hf gone w'. subst gone w'.
  pose proof (melody_positive 0) as Hm0.
  open_named w. subst.
  destruct (detectFace (accX i) (accY i) (accZ i)); try congruence;
    cbn; split_tests; tests_to_prop;
    repeat split; intros; try reflexivity; try lia.
Qed.

(** With the active face in view and iterations 50 ms apart, the
    countdown stays as it is as long as less than 1000 ms have passed
    since the time [ticked] of its last tick. *)
Lemma countdown_quiet (ins : list Input) :
  forall (w : World) (ticked : Z),
    Forall (steady (activeFace w)) ins ->
    activeFace w <> FACE_NONE ->
    currentState w = STATE_COUNTDOWN ->
    lastCountdownTick w = ulong32 ticked ->
    0 <= clock w - ticked ->
    clock w - ticked + 50 * Z.of_nat (length ins) <= 1000 ->
    let w' := run ulong32 ins w in
    currentState w' = STATE_COUNTDOWN /\
    activeFace w' = activeFace w /\
    lastCountdownTick w' = lastCountdownTick w /\
    countdownRemainingSec w' = countdownRemainingSec w /\
    countdownTotalSec w' = countdownTotalSec w /\
    clock w' = clock w + 50 * Z.of_nat (length ins).
Proof.
  induction ins as [|i ins IH]; intros w ticked Hall Hnone Hst Ha H0 Hlen.
  - cbn. repeat split; try reflexivity; try assumption; lia.
  - inversion Hall as [|? ? [Hf Hl] Hrest]; subst.
    cbn [length] in Hlen. rewrite Nat2Z.inj_succ in Hlen.
    destruct (countdown_step i w Hst Hnone Hf)
      as (Hface & Hclk & Htot & Hq & _ & _).
    rewrite Hl, Z.add_0_r, Ha, ulong32_elapsed in Hq by lia.
    rewrite Hl, Z.add_0_r in Hclk.
    destruct Hq as (Hst' & Hrem & Htick); [lia|].
    destruct (IH (loop ulong32 i w) ticked) as (I1 & I2 & I3 & I4 & I5 & I6).
    + rewrite Hface. exact Hrest.
    + rewrite Hface. exact Hnone.
    + exact Hst'.
    + exact Htick.
    + rewrite Hclk. lia.
    + rewrite Hclk. lia.
    + cbn [run length]. rewrite Nat2Z.inj_succ.
      rewrite I1, I2, I3, I4, I5, I6, Hface, Hrem, Htick, Htot, Hclk, Ha.
      repeat split; try reflexivity; lia.
Qed.

(** Twenty iterations 50 ms apart, starting 50 ms after a tick of the
    countdown: nothing changes during the first nineteen, and the
    twentieth is the next tick. *)
Lemma countdown_second_run (pre : list Input) (i : Input) (w : World) :
  length pre = 19%nat ->
  Forall (steady (activeFace w)) (pre ++ [i]) ->
  activeFace w <> FACE_NONE ->
  currentState w = STATE_COUNTDOWN ->
  lastCountdownTick w = ulong32 (clock w - 50) ->
  (forall p q, pre = p ++ q ->
               currentState (run ulong32 p w) = STATE_COUNTDOWN /\
               countdownRemainingSec (run ulong32 p w) = countdownRemainingSec w) /\
  let w' := run ulong32 (pre ++ [i]) w in
  clock w' = clock w + 1000 /\
  activeFace w' = activeFace w /\
  countdownTotalSec w' = countdownTotalSec w /\
  (0 < countdownRemainingSec w ->
   currentState w' = STATE_COUNTDOWN /\
   countdownRemainingSec w' = countdownRemainingSec w - 1 /\
   lastCountdownTick w' = ulong32 (clock w' - 50)) /\
  (countdownRemainingSec w <= 0 ->
   currentState w' = STATE_ALARM /\
   countdownRemainingSec w' = countdownRemainingSec w /\
   lastAlarmToggleMs w' = ulong32 (clock w' - 50) /\
   noteStartMs w' = ulong32 (clock w' - 50) /\
   currentNoteIndex w' = 0 /\
   alarmOutputState w' = false).
Proof.
  intros Hlen Hall Hnone Hst Ha.
  apply Forall_app in Hall. destruct Hall as [Hpre Hi].
  inversion Hi as [|? ? [Hf Hl] _]; subst.
  split.
  - intros p q ->. apply Forall_app in Hpre. destruct Hpre as [Hp _].
    rewrite length_app in Hlen.
    destruct (countdown_quiet p w (clock w - 50) Hp Hnone Hst Ha)
      as (H1 & _ & _ & H4 & _); [lia|lia|].
    split; [exact H1|exact H4].
  - destruct (countdown_quiet pre w (clock w - 50) Hpre Hnone Hst Ha)
      as (I1 & I2 & I3 & I4 & I5 & I6); [lia|lia|].
    rewrite Hlen in I6. cbv zeta. rewrite run_app. cbn [run].
    set (w1 := run ulong32 pre w) in *.
    rewrite <- I2 in Hf.
    assert (Hnone1 : activeFace w1 <> FACE_NONE) by (rewrite I2; exact Hnone).
    destruct (countdown_step i w1 I1 Hnone1 Hf)
      as (Hface & Hclk & Htot & _ & Hdec & Hexp).
    rewrite Hl, Z.add_0_r, I3, Ha, ulong32_elapsed in Hdec, Hexp by lia.
    rewrite Hl, Z.add_0_r in Hclk.
    rewrite I4 in Hdec, Hexp.
    assert (Hc : clock (loop ulong32 i w1) - 50 = clock w1) by lia.
    rewrite Hc, Hface, Htot, I2, I5, Hclk.
    split; [lia|]. split; [reflexivity|]. split; [reflexivity|].
    split; intros Hrem.
    + apply Hdec; [lia|exact Hrem].
    + apply Hexp; [lia|exact Hrem].
Qed.

Lemma chunk_prefix (A : Type) (pre : list A) (i : A) (rest p q : list A) :
  (pre ++ [i]) ++ rest = p ++ q ->
  (exists l, l <> [] /\ pre ++ [i] = p ++ l) \/
  (exists l, p = (pre ++ [i]) ++ l /\ rest = l ++ q).
Proof.
  intros H. apply app_eq_app in H. destruct H as [l [[H1 H2]|[H1 H2]]].
  - destruct l as [|x l].
    + right. exists []. rewrite app_nil_r in *. subst. split; reflexivity.
    + left. exists (x :: l). split; [discriminate|exact H1].
  - right. exists l. split; assumption.
Qed.

Lemma prefix_of_chunk (A : Type) (pre : list A) (i : A) (p l : list A) :
  l <> [] -> pre ++ [i] = p ++ l -> exists l', pre = p ++ l'.
Proof.
  intros Hl H. destruct (exists_last Hl) as (l' & x & ->).
  rewrite app_assoc in H. apply app_inj_tail in H. destruct H as [H _].
  exists l'. exact H.
Qed.

(** From a tick of the countdown with [n] seconds remaining, [n + 1]
    seconds of iterations 50 ms apart end in the alarm, and not before. *)
Lemma countdown_to_alarm (n : nat) :
  forall (ins : list Input) (w : World),
    length ins = (20 * (n + 1))%nat ->
    Forall (steady (activeFace w)) ins ->
    activeFace w <> FACE_NONE ->
    currentState w = STATE_COUNTDOWN ->
    countdownRemainingSec w = Z.of_nat n ->
    lastCountdownTick w = ulong32 (clock w - 50) ->
    currentState (run ulong32 ins w) = STATE_ALARM /\
    clock (run ulong32 ins w) = clock w + 1000 * (Z.of_nat n + 1) /\
    countdownRemainingSec (run ulong32 ins w) = 0 /\
    (forall p q, ins = p ++ q -> q <> [] ->
                 currentState (run ulong32 p w) = STATE_COUNTDOWN).
Proof.
  induction n as [|n IH]; intros ins w Hlen Hall Hnone Hst Hrem Ha.
  - destruct (nth_split ins (rest_flat 0) (n := 19)) as (pre & rest & Hsplit & Hpre);
      [lia|].
    set (i := nth 19 ins (rest_flat 0)) in *. clearbody i.
    assert (rest = []) as ->.
    { subst ins. rewrite length_app in Hlen. cbn [length] in Hlen.
      destruct rest; [reflexivity|cbn [length] in Hlen; lia]. }
    subst ins.
    destruct (countdown_second_run pre i w Hpre Hall Hnone Hst Ha)
      as (Hpfx & Hclk & _ & _ & _ & Hexp).
    destruct Hexp as (E1 & E2 & _); [lia|].
    split; [exact E1|]. split; [cbv zeta in Hclk; lia|].
    split; [lia|].
    intros p q Hpq Hq.
    destruct (chunk_prefix _ pre i [] p q) as [(l & Hl & Hl')|(l & _ & Hl')].
    + rewrite app_nil_r. exact Hpq.
    + destruct (prefix_of_chunk _ pre i p l Hl Hl') as (l' & ->).
      apply (Hpfx p l' eq_refl).
    + symmetry in Hl'. apply app_eq_nil in Hl'. destruct Hl' as [_ ->].
      contradiction.
  - destruct (nth_split ins (rest_flat 0) (n := 19)) as (pre & rest & Hsplit & Hpre);
      [lia|].
    set (i := nth 19 ins (rest_flat 0)) in *. clearbody i.
    assert (Hrest : length rest = (20 * (n + 1))%nat).
    { subst ins. rewrite length_app in Hlen. cbn [length] in Hlen. lia. }
    replace (pre ++ i :: rest) with ((pre ++ [i]) ++ rest) in Hsplit
      by (rewrite <- app_assoc; reflexivity).
    subst ins. apply Forall_app in Hall. destruct Hall as [Hchunk Hall].
    destruct (countdown_second_run pre i w Hpre Hchunk Hnone Hst Ha)
      as (Hpfx & Hclk & Hface & _ & Hdec & _).
    destruct Hdec as (D1 & D2 & D3); [lia|].
    cbv zeta in Hclk, Hface.
    set (w1 := run ulong32 (pre ++ [i]) w) in *.
    destruct (IH rest w1) as (I1 & I2 & I3 & I4).
    + exact Hrest.
    + rewrite Hface. exact Hall.
    + rewrite Hface. exact Hnone.
    + exact D1.
    + rewrite D2, Hrem. lia.
    + exact D3.
    + rewrite run_app. fold w1.
      split; [exact I1|]. split; [lia|]. split; [exact I3|].
      intros p q Hpq Hq.
      destruct (chunk_prefix _ pre i rest p q Hpq)
        as [(l & Hl & Hl')|(l & -> & Hl')].
      * destruct (prefix_of_chunk _ pre i p l Hl Hl') as (l' & ->).
        apply (Hpfx p l' eq_refl).
      * rewrite run_app. fold w1. apply (I4 l q Hl' Hq).
Qed.

(** The iteration of the menu that starts a countdown. *)
Lemma menu_start (i : Input) (w : World) :
  currentState w = STATE_MENU ->
  detectFace (accX i) (accY i) (accZ i) <> FACE_NONE ->
  let w' := loop ulong32 i w in
  currentState w' = STATE_COUNTDOWN /\
  activeFace w' = detectFace (accX i) (accY i) (accZ i) /\
  countdownRemainingSec w' = faceDuration (activeFace w') /\
  lastCountdownTick w' = ulong32 (clock w + lag i) /\
  clock w' = clock w + lag i + 50.
Proof.
  intros Hst Hf w'. subst w'. open_named w. subst.
  destruct (detectFace (accX i) (accY i) (accZ i)); try congruence;
    cbn; repeat split.
Qed.

(** X9. With the active face in view and iterations exactly 50 ms
    apart, the countdown ticks once a second: of the twenty iterations
    that follow a tick, the first nineteen change neither the state nor
    the remaining seconds, and the twentieth, 1000 ms after the tick,
    decrements the remaining seconds when they are positive and enters the
    alarm when they are 0. *)
Theorem countdown_second (pre : list Input) (i : Input) (w : World) :
  length pre = 19%nat ->
  Forall (steady (activeFace w)) (pre ++ [i]) ->
  activeFace w <> FACE_NONE ->
  currentState w = STATE_COUNTDOWN ->
  lastCountdownTick w = ulong32 (clock w - 50) ->
  (forall p q, pre = p ++ q ->
               currentState (run ulong32 p w) = STATE_COUNTDOWN /\
               countdownRemainingSec (run ulong32 p w) = countdownRemainingSec w) /\
  let w' := run ulong32 (pre ++ [i]) w in
  clock w' = clock w + 1000 /\
  (0 < countdownRemainingSec w ->
   currentState w' = STATE_COUNTDOWN /\
   countdownRemainingSec w' = countdownRemainingSec w - 1 /\
   lastCountdownTick w' = ulong32 (clock w' - 50)) /\
  (countdownRemainingSec w <= 0 ->
   currentState w' = STATE_ALARM /\
   countdownRemainingSec w' = countdownRemainingSec w).
Proof.
  intros Hlen Hall Hnone Hst Ha.
  destruct (countdown_second_run pre i w Hlen Hall Hnone Hst Ha)
    as (Hpfx & Hclk & _ & _ & Hdec & Hexp).
  split; [exact Hpfx|]. cbv zeta in *.
  split; [exact Hclk|]. split; [exact Hdec|].
  intros Hrem. destruct (Hexp Hrem) as (E1 & E2 & _).
  split; [exact E1|exact E2].
Qed.

Lemma countdown_second_witness :
  let w := held_negY 1 in
  let w' := run ulong32 (repeat (rest_negY 0) 19 ++ [rest_negY 0]) w in
  countdownRemainingSec w = 5 /\
  clock w' = clock w + 1000 /\
  countdownRemainingSec w' = 4.
Proof.
  intros w w'.
  destruct (countdown_second (repeat (rest_negY 0) 19) (rest_negY 0) w)
    as (_ & H1 & H2 & _).
  - reflexivity.
  - repeat constructor; vm_compute; reflexivity.
  - vm_compute. discriminate.
  - vm_compute. reflexivity.
  - vm_compute. reflexivity.
  - split; [vm_compute; reflexivity|]. split; [exact H1|].
    destruct H2 as (_ & H2 & _); [vm_compute; reflexivity|].
    fold w' in H2. rewrite H2. vm_compute. reflexivity.
Defined.

(** X10. From the menu, a trigger face [f] held with iterations exactly
    50 ms apart starts the countdown at the first iteration and enters the
    alarm [faceDuration f + 1] seconds later, at the last of the
    [20 * (faceDuration f + 1)] iterations that follow, with 0 seconds
    remaining; after every iteration before that one the sketch is in the
    countdown. *)
Theorem held_face_alarm (f : Face) (i0 : Input) (ins : list Input) (w : World) :
  currentState w = STATE_MENU ->
  f <> FACE_NONE ->
  Forall (steady f) (i0 :: ins) ->
  Z.of_nat (length ins) = 20 * (faceDuration f + 1) ->
  let w' := run ulong32 (i0 :: ins) w in
  currentState w' = STATE_ALARM /\
  countdownRemainingSec w' = 0 /\
  clock w' = clock w + 50 + 1000 * (faceDuration f + 1) /\
  (forall p q, ins = p ++ q -> q <> [] ->
               currentState (run ulong32 (i0 :: p) w) = STATE_COUNTDOWN).
Proof.
  intros Hst Hf Hall Hlen w'. subst w'.
  inversion Hall as [|? ? [Hf0 Hl0] Hrest]; subst.
  destruct (menu_start i0 w Hst Hf) as (S1 & S2 & S3 & S4 & S5).
  rewrite Hl0, Z.add_0_r in S4, S5.
  set (f := detectFace (accX i0) (accY i0) (accZ i0)) in *.
  set (w1 := loop ulong32 i0 w) in *.
  pose proof (faceDuration_range f) as Hd.
  destruct (countdown_to_alarm (Z.to_nat (faceDuration f)) ins w1)
    as (A1 & A2 & A3 & A4).
  - lia.
  - rewrite S2. exact Hrest.
  - rewrite S2. exact Hf.
  - exact S1.
  - rewrite S3, S2. lia.
  - rewrite S4. f_equal. lia.
  - cbn [run]. fold w1.
    split; [exact A1|]. split; [exact A3|]. split; [lia|].
    intros p q Hpq Hq. apply (A4 p q Hpq Hq).
Qed.

Lemma held_face_alarm_witness :
  let w := run ulong32 (rest_posX 0 :: repeat (rest_posX 0) 620) (setup 0) in
  currentState w = STATE_ALARM /\ clock w = 50 + 31000.
Proof.
  intros w.
  destruct (held_face_alarm FACE_POS_X (rest_posX 0)
              (repeat (rest_posX 0) 620) (setup 0))
    as (H1 & _ & H2 & _).
  - reflexivity.
  - discriminate.
  - apply Forall_forall. intros i Hi.
    change (rest_posX 0 :: repeat (rest_posX 0) 620)
      with (repeat (rest_posX 0) 621) in Hi.
    apply repeat_spec in Hi. subst i. vm_compute. split; reflexivity.
  - vm_compute. reflexivity.
  - split; [exact H1|exact H2].
Defined.

(** ** Further properties of the orientation classifier *)

Lemma fabsf_opp (a : spec_float) : F32.fabsf (SFopp a) = F32.fabsf a.
Proof. destruct a; reflexivity. Qed.

Lemma gt_opp_zero (a : spec_float) : F32.gt (SFopp a) F32.zero = F32.lt a F32.zero.
Proof. destruct a as [s|s| |s m e]; try destruct s; reflexivity. Qed.

Lemma lt_opp_zero (a : spec_float) : F32.lt (SFopp a) F32.zero = F32.gt a F32.zero.
Proof. destruct a as [s|s| |s m e]; try destruct s; reflexivity. Qed.

(** X11. A face reported by [detectFace] is backed by the sample: the
    magnitude of its axis lies in the band [[9.0, 11.5]], is not exceeded
    by the magnitudes of the other two axes, and the sign of the axis is
    that of the face. *)
Theorem detectFace_sound (x y z : spec_float) :
  let ax := F32.fabsf x in
  let ay := F32.fabsf y in
  let az := F32.fabsf z in
  match detectFace x y z with
  | FACE_NONE => True
  | FACE_POS_Y =>
      in_band ay = true /\ F32.ge ay ax = true /\ F32.ge ay az = true /\
      F32.gt y F32.zero = true
  | FACE_NEG_Y =>
      in_band ay = true /\ F32.ge ay ax = true /\ F32.ge ay az = true /\
      F32.lt y F32.zero = true
  | FACE_POS_X =>
      in_band ax = true /\ F32.ge ax ay = true /\ F32.ge ax az = true /\
      F32.gt x F32.zero = true
  | FACE_NEG_X =>
      in_band ax = true /\ F32.ge ax ay = true /\ F32.ge ax az = true /\
      F32.lt x F32.zero = true
  end.
Proof.
  intros ax ay az. subst ax ay az. rewrite detectFace_unfold.
  destruct (F32.ge (F32.fabsf y) (F32.fabsf x)) eqn:Hyx;
    destruct (F32.ge (F32.fabsf y) (F32.fabsf z)) eqn:Hyz;
    destruct (in_band (F32.fabsf y)) eqn:Hby; cbn [andb].
  1: { pose proof (F32Facts.in_band_sign y Hby) as Hs.
       destruct (F32.gt y F32.zero) eqn:Hg; repeat split; try assumption.
       destruct (F32.lt y F32.zero); [reflexivity|discriminate Hs]. }
  all: destruct (F32.ge (F32.fabsf x) (F32.fabsf y)) eqn:Hxy;
    destruct (F32.ge (F32.fabsf x) (F32.fabsf z)) eqn:Hxz;
    destruct (in_band (F32.fabsf x)) eqn:Hbx; cbn [andb]; try exact I.
  all: pose proof (F32Facts.in_band_sign x Hbx) as Hs;
    destruct (F32.gt x F32.zero) eqn:Hg; repeat split; try assumption;
    destruct (F32.lt x F32.zero); [reflexivity|discriminate Hs].
Qed.

(** X12. Turning the device over exchanges the faces: negating the X and
    Y components of a sample gives the opposite face, and the sign of the
    Z component never matters. *)
Theorem detectFace_opposite (x y z : spec_float) :
  detectFace (SFopp x) (SFopp y) z = opposite (detectFace x y z) /\
  detectFace x y (SFopp z) = detectFace x y z.
Proof.
  split.
  - rewrite !detectFace_unfold, !fabsf_opp, !gt_opp_zero.
    destruct (F32.ge (F32.fabsf y) (F32.fabsf x) && F32.ge (F32.fabsf y) (F32.fabsf z))
      eqn:Hy; cbn [andb].
    + destruct (in_band (F32.fabsf y)) eqn:Hby.
      * rewrite (F32Facts.in_band_sign y Hby).
        destruct (F32.lt y F32.zero); reflexivity.
      * destruct (F32.ge (F32.fabsf x) (F32.fabsf y) && F32.ge (F32.fabsf x) (F32.fabsf z));
          cbn [andb]; [|reflexivity].
        destruct (in_band (F32.fabsf x)) eqn:Hbx; [|reflexivity].
        rewrite (F32Facts.in_band_sign x Hbx).
        destruct (F32.lt x F32.zero); reflexivity.
    + destruct (F32.ge (F32.fabsf x) (F32.fabsf y) && F32.ge (F32.fabsf x) (F32.fabsf z));
        cbn [andb]; [|reflexivity].
      destruct (in_band (F32.fabsf x)) eqn:Hbx; [|reflexivity].
      rewrite (F32Facts.in_band_sign x Hbx).
      destruct (F32.lt x F32.zero); reflexivity.
  - rewrite !detectFace_unfold, !fabsf_opp. reflexivity.
Qed.

(** *** Deviations shorter than the debounce window *)

(** Outside the menu, an iteration that sees the active face closes the
    window and stays out of the menu. *)
Lemma loop_sees_active (i : Input) (w : World) :
  currentState w <> STATE_MENU ->
  activeFace w <> FACE_NONE ->
  detectFace (accX i) (accY i) (accZ i) = activeFace w ->
  let w' := loop ulong32 i w in
  currentState w' <> STATE_MENU /\
  activeFace w' = activeFace w /\
  axisChangePending w' = false.
Proof.
  intros Hst Hnone Hf w'. subst w'. open_named w. subst.
  destruct st; [contradiction| |];
    destruct (detectFace (accX i) (accY i) (accZ i)); try congruence;
    cbn; split_tests; repeat split; discriminate.
Qed.

Lemma deviations_short_run (ins : list Input) :
  forall (w : World) (window : option Z),
    currentState w <> STATE_MENU ->
    activeFace w <> FACE_NONE ->
    window_matches w window ->
    Forall (fun i => 0 <= lag i <= MAX_LAG) ins ->
    deviations_short (activeFace w) window ins ->
    currentState (run ulong32 ins w) <> STATE_MENU /\
    activeFace (run ulong32 ins w) = activeFace w.
Proof.
  induction ins as [|i ins IH]; intros w window Hst Hnone Hwin Hall Hdev.
  - cbn. split; [exact Hst|reflexivity].
  - inversion Hall as [|? ? Hl Hrest]; subst. cbn [deviations_short] in Hdev.
    cbn [run].
    destruct (Face_eqb (detectFace (accX i) (accY i) (accZ i)) (activeFace w))
      eqn:Hface.
    + apply Face_eqb_eq in Hface.
      destruct (loop_sees_active i w Hst Hnone Hface) as (S1 & S2 & S3).
      rewrite <- S2 in Hdev, Hnone |- *.
      apply (IH _ None); assumption.
    + apply Face_eqb_neq in Hface.
      destruct window as [age|].
      * destruct Hwin as (Hp & Ha & Hage). destruct Hdev as [Hshort Hdev].
        unfold MAX_LAG in Hl. unfold AXIS_CHANGE_BUFFER_MS in Hshort.
        destruct (loop_keeps_window i w Hst Hp Hface) as (S1 & S2 & S3 & S4 & S5).
        { rewrite Ha, ulong32_elapsed by lia.
          unfold AXIS_CHANGE_BUFFER_MS. lia. }
        rewrite <- S2 in Hdev, Hnone |- *.
        apply (IH _ (Some (age + lag i + 50))); try assumption.
        split; [exact S3|]. split; [|lia].
        rewrite S4, Ha, S5. f_equal. lia.
      * cbn in Hwin.
        destruct (loop_opens_window i w Hst Hwin Hface) as (S1 & S2 & S3 & S4 & S5).
        rewrite <- S2 in Hdev, Hnone |- *.
        apply (IH _ (Some 50)); try assumption.
        split; [exact S3|]. split; [|lia].
        rewrite S4, S5. f_equal. lia.
Qed.

(** X13. Outside the menu with no window open, as long as every run of
    consecutive iterations that see another face than the active one
    lasts less than 500 ms, the sketch never returns to the menu and keeps
    its active face, however many such runs occur. *)
Theorem short_deviations_never_cancel (ins : list Input) (w : World) :
  reachable w ->
  currentState w <> STATE_MENU ->
  axisChangePending w = false ->
  Forall (fun i => 0 <= lag i <= MAX_LAG) ins ->
  deviations_short (activeFace w) None ins ->
  currentState (run ulong32 ins w) <> STATE_MENU /\
  activeFace (run ulong32 ins w) = activeFace w.
Proof.
  intros Hr Hst Hp Hall Hdev.
  destruct (reachable_invariant w Hr) as [[Hm|Hnone] _ _]; [contradiction|].
  apply (deviations_short_run ins w None); assumption.
Qed.

Lemma short_deviations_never_cancel_witness :
  let ins := repeat (rest_flat 0) 9 ++ [rest_negY 0] ++ repeat (rest_flat 0) 9 in
  currentState (run ulong32 ins (held_negY 1)) <> STATE_MENU.
Proof.
  intros ins.
  destruct (short_deviations_never_cancel ins (held_negY 1)
              (reachable_held_negY 1)) as [H _].
  - vm_compute. discriminate.
  - vm_compute. reflexivity.
  - repeat constructor; vm_compute; discriminate.
  - vm_compute. repeat split; reflexivity.
  - exact H.
Defined.

(** *** The melody at 50 ms polling *)

Lemma duration_ticks (n : Z) :
  0 <= n < 13 ->
  aread noteDurations n = 50 * (aread noteDurations n / 50) /\
  1 <= aread noteDurations n / 50.
Proof.
  intros Hn. unfold aread.
  assert (Hk : (Z.to_nat n < 13)%nat) by lia.
  revert Hk. generalize (Z.to_nat n). intros k Hk.
  do 13 (destruct k as [|k]; [vm_compute; split; [reflexivity|discriminate]|]).
  lia.
Qed.

Lemma next_note_range (n : Z) : 0 <= next_note n < 13.
Proof. unfold next_note. apply Z.mod_pos_bound. lia. Qed.

(** With the active face in view and iterations 50 ms apart, the melody
    clock stays as it is as long as less than the duration of the current
    note has passed since the time [began] at which the note began. *)
Lemma melody_quiet (ins : list Input) :
  forall (w : World) (began : Z),
    Forall (steady (activeFace w)) ins ->
    activeFace w <> FACE_NONE ->
    currentState w = STATE_ALARM ->
    0 <= currentNoteIndex w < NUM_NOTES ->
    noteStartMs w = ulong32 began ->
    0 <= clock w - began ->
    clock w - began + 50 * Z.of_nat (length ins)
      <= aread noteDurations (currentNoteIndex w) ->
    let w' := run ulong32 ins w in
    currentState w' = STATE_ALARM /\
    activeFace w' = activeFace w /\
    noteStartMs w' = noteStartMs w /\
    currentNoteIndex w' = currentNoteIndex w /\
    toneHz w' = toneHz w /\
    clock w' = clock w + 50 * Z.of_nat (length ins).
Proof.
  induction ins as [|i ins IH]; intros w began Hall Hnone Hst Hn Ha H0 Hlen.
  - cbn. repeat split; try reflexivity; try assumption; lia.
  - inversion Hall as [|? ? [Hf Hl] Hrest]; subst.
    cbn [length] in Hlen. rewrite Nat2Z.inj_succ in Hlen.
    pose proof (durations_bound (currentNoteIndex w) Hn) as Hd.
    pose proof (alarm_stays i w Hst Hnone Hf) as Hst'.
    destruct (alarm_blink_step i w Hst Hst') as (_ & _ & Hface & Hclk).
    destruct (alarm_melody_step i w Hst Hst' Hn) as (Hm & Htone).
    rewrite Hl, Z.add_0_r in Hm, Htone, Hclk.
    unfold melody_step in Hm.
    rewrite Ha, ulong32_elapsed in Hm, Htone by lia.
    assert (Hq : (clock w - began >=? aread noteDurations (currentNoteIndex w)) = false).
    { rewrite Z.geb_leb. apply Z.leb_gt. lia. }
    rewrite Hq in Hm, Htone. injection Hm as Hm1 Hm2.
    destruct (IH (loop ulong32 i w) began) as (I1 & I2 & I3 & I4 & I5 & I6).
    + rewrite Hface. exact Hrest.
    + rewrite Hface. exact Hnone.
    + exact Hst'.
    + rewrite Hm1. exact Hn.
    + exact Hm2.
    + rewrite Hclk. lia.
    + rewrite Hclk, Hm1. lia.
    + cbn [run length]. rewrite Nat2Z.inj_succ.
      rewrite I1, I2, I3, I4, I5, I6, Hface, Hm1, Hm2, Htone, Hclk, Ha.
      repeat split; try reflexivity; lia.
Qed.

(** A note of the melody, from 50 ms after it began: nothing changes
    until the iteration that reads its duration, which moves to the next
    note. *)
Lemma note_lasts_run (pre : list Input) (i : Input) (w : World) :
  aread noteDurations (currentNoteIndex w) = 50 * (Z.of_nat (length pre) + 1) ->
  Forall (steady (activeFace w)) (pre ++ [i]) ->
  activeFace w <> FACE_NONE ->
  currentState w = STATE_ALARM ->
  0 <= currentNoteIndex w < NUM_NOTES ->
  noteStartMs w = ulong32 (clock w - 50) ->
  (forall p q, pre = p ++ q ->
               currentNoteIndex (run ulong32 p w) = currentNoteIndex w /\
               toneHz (run ulong32 p w) = toneHz w) /\
  let w' := run ulong32 (pre ++ [i]) w in
  currentNoteIndex w' = next_note (currentNoteIndex w) /\
  toneHz w' = aread melody (next_note (currentNoteIndex w)) /\
  clock w' = clock w + aread noteDurations (currentNoteIndex w) /\
  noteStartMs w' = ulong32 (clock w' - 50) /\
  currentState w' = STATE_ALARM /\
  activeFace w' = activeFace w.
Proof.
  intros Hdur Hall Hnone Hst Hn Ha.
  apply Forall_app in Hall. destruct Hall as [Hpre Hi].
  inversion Hi as [|? ? [Hf Hl] _]; subst.
  split.
  - intros p q ->. apply Forall_app in Hpre. destruct Hpre as [Hp _].
    rewrite length_app in Hdur.
    destruct (melody_quiet p w (clock w - 50) Hp Hnone Hst Hn Ha)
      as (_ & _ & _ & H4 & H5 & _); [lia|lia|].
    split; [exact H4|exact H5].
  - destruct (melody_quiet pre w (clock w - 50) Hpre Hnone Hst Hn Ha)
      as (I1 & I2 & I3 & I4 & I5 & I6); [lia|lia|].
    pose proof (durations_bound (currentNoteIndex w) Hn) as Hd.
    cbv zeta. rewrite run_app. cbn [run].
    set (w1 := run ulong32 pre w) in *.
    rewrite <- I2 in Hf. rewrite <- I4 in Hn.
    assert (Hnone1 : activeFace w1 <> FACE_NONE) by (rewrite I2; exact Hnone).
    pose proof (alarm_stays i w1 I1 Hnone1 Hf) as Hst'.
    destruct (alarm_blink_step i w1 I1 Hst') as (_ & _ & Hface & Hclk).
    destruct (alarm_melody_step i w1 I1 Hst' Hn) as (Hm & Htone).
    rewrite Hl, Z.add_0_r in Hm, Htone, Hclk.
    unfold melody_step in Hm.
    rewrite I3, Ha, ulong32_elapsed in Hm, Htone by lia.
    rewrite I4 in Hm, Htone.
    assert (Hq : (clock w1 - (clock w - 50)
                  >=? aread noteDurations (currentNoteIndex w)) = true).
    { rewrite Z.geb_leb. apply Z.leb_le. lia. }
    rewrite Hq in Hm, Htone. injection Hm as Hm1 Hm2.
    fold (next_note (currentNoteIndex w)) in Hm1.
    rewrite Htone, Hm1, Hm2, Hface, Hclk, I2.
    repeat split; try reflexivity; try assumption; try lia.
    f_equal. lia.
Qed.

(** X14. With the active face in view and iterations exactly 50 ms
    apart, a note of the alarm melody lasts exactly its duration: from 50
    ms after it began, the note index and the tone stay as they are until
    the iteration that reads the duration of the note, which moves to the
    next note, from note 12 to note 0, and starts its tone. *)
Theorem note_lasts_its_duration (pre : list Input) (i : Input) (w : World) :
  aread noteDurations (currentNoteIndex w) = 50 * (Z.of_nat (length pre) + 1) ->
  Forall (steady (activeFace w)) (pre ++ [i]) ->
  activeFace w <> FACE_NONE ->
  currentState w = STATE_ALARM ->
  0 <= currentNoteIndex w < NUM_NOTES ->
  noteStartMs w = ulong32 (clock w - 50) ->
  (forall p q, pre = p ++ q ->
               currentNoteIndex (run ulong32 p w) = currentNoteIndex w /\
               toneHz (run ulong32 p w) = toneHz w) /\
  let w' := run ulong32 (pre ++ [i]) w in
  currentNoteIndex w' = (currentNoteIndex w + 1) mod 13 /\
  toneHz w' = aread melody ((currentNoteIndex w + 1) mod 13) /\
  clock w' = clock w + aread noteDurations (currentNoteIndex w) /\
  noteStartMs w' = ulong32 (clock w' - 50).
Proof.
  intros Hdur Hall Hnone Hst Hn Ha.
  destruct (note_lasts_run pre i w Hdur Hall Hnone Hst Hn Ha)
    as (Hpfx & H1 & H2 & H3 & H4 & _).
  split; [exact Hpfx|]. cbv zeta in *. unfold next_note in *.
  split; [exact H1|]. split; [exact H2|]. split; [exact H3|exact H4].
Qed.

Lemma note_lasts_its_duration_witness :
  let w := held_negY 121 in
  let w' := run ulong32 (repeat (rest_negY 0) 2 ++ [rest_negY 0]) w in
  currentNoteIndex w = 0 /\ currentNoteIndex w' = 1 /\ toneHz w' = 587.
Proof.
  intros w w'.
  destruct (note_lasts_its_duration (repeat (rest_negY 0) 2) (rest_negY 0) w)
    as (_ & H1 & H2 & _).
  - vm_compute. reflexivity.
  - repeat constructor; vm_compute; reflexivity.
  - vm_compute. discriminate.
  - vm_compute. reflexivity.
  - vm_compute. split; [discriminate|reflexivity].
  - vm_compute. reflexivity.
  - split; [vm_compute; reflexivity|].
    fold w' in H1, H2. rewrite H1, H2. split; vm_compute; reflexivity.
Defined.

Lemma melody_notes (count : nat) :
  forall (ins : list Input) (w : World),
    length ins = notes_length (currentNoteIndex w) count ->
    Forall (steady (activeFace w)) ins ->
    activeFace w <> FACE_NONE ->
    currentState w = STATE_ALARM ->
    0 <= currentNoteIndex w < NUM_NOTES ->
    noteStartMs w = ulong32 (clock w - 50) ->
    let w' := run ulong32 ins w in
    currentNoteIndex w' = Nat.iter count next_note (currentNoteIndex w) /\
    clock w' = clock w + 50 * Z.of_nat (length ins) /\
    noteStartMs w' = ulong32 (clock w' - 50) /\
    currentState w' = STATE_ALARM /\
    activeFace w' = activeFace w /\
    (toneHz w' = aread melody (currentNoteIndex w') \/ (count = O /\ w' = w)).
Proof.
  induction count as [|count IH]; intros ins w Hlen Hall Hnone Hst Hn Ha.
  - cbn in Hlen. destruct ins; [|discriminate Hlen]. cbn.
    repeat split; try assumption; try lia. right. split; reflexivity.
  - cbn [notes_length] in Hlen.
    pose proof Hn as Hn13. change NUM_NOTES with 13 in Hn13.
    destruct (duration_ticks (currentNoteIndex w) Hn13) as [Hd50 Hd1].
    set (k := aread noteDurations (currentNoteIndex w) / 50) in *.
    destruct (nth_split ins (rest_flat 0) (n := Z.to_nat k - 1))
      as (pre & rest & Hsplit & Hpre); [lia|].
    set (i := nth (Z.to_nat k - 1) ins (rest_flat 0)) in *. clearbody i.
    replace (pre ++ i :: rest) with ((pre ++ [i]) ++ rest) in Hsplit
      by (rewrite <- app_assoc; reflexivity).
    assert (Hrest : length rest = notes_length (next_note (currentNoteIndex w)) count).
    { subst ins. rewrite !length_app in Hlen. cbn [length] in Hlen. lia. }
    subst ins. apply Forall_app in Hall. destruct Hall as [Hchunk Hall].
    destruct (note_lasts_run pre i w) as (_ & N1 & N2 & N3 & N4 & N5 & N6);
      try assumption; [lia|].
    cbv zeta in N1, N2, N3, N4, N5, N6.
    set (w1 := run ulong32 (pre ++ [i]) w) in *.
    destruct (IH rest w1) as (I1 & I2 & I3 & I4 & I5 & I6).
    + rewrite N1. exact Hrest.
    + rewrite N6. exact Hall.
    + rewrite N6. exact Hnone.
    + exact N5.
    + rewrite N1. apply next_note_range.
    + exact N4.
    + cbv zeta. rewrite run_app. fold w1.
      rewrite Nat.iter_succ_r, <- N1.
      split; [exact I1|].
      split; [rewrite I2, N3, Hd50, !length_app, Hpre; cbn [length]; lia|].
      split; [exact I3|]. split; [exact I4|].
      split; [rewrite I5; exact N6|].
      left. destruct I6 as [I6|[_ I6]]; [exact I6|].
      rewrite I6, N2, N1. reflexivity.
Qed.

Lemma melody_round_facts (n : Z) :
  0 <= n < 13 ->
  notes_length n 13 = 66%nat /\ Nat.iter 13 next_note n = n.
Proof.
  intros Hn.
  assert (Hk : (Z.to_nat n < 13)%nat) by lia.
  rewrite <- (Z2Nat.id n) by lia.
  revert Hk. generalize (Z.to_nat n). intros k Hk.
  do 13 (destruct k as [|k]; [vm_compute; split; reflexivity|]).
  lia.
Qed.

(** X15. With the active face in view and iterations exactly 50 ms
    apart, the alarm melody repeats every 3300 ms: 66 iterations after a
    note began, the sketch is at the beginning of the same note again,
    playing its frequency, whatever the blink clock did meanwhile. *)
Theorem melody_round (ins : list Input) (w : World) :
  length ins = 66%nat ->
  Forall (steady (activeFace w)) ins ->
  activeFace w <> FACE_NONE ->
  currentState w = STATE_ALARM ->
  0 <= currentNoteIndex w < NUM_NOTES ->
  noteStartMs w = ulong32 (clock w - 50) ->
  let w' := run ulong32 ins w in
  currentState w' = STATE_ALARM /\
  currentNoteIndex w' = currentNoteIndex w /\
  toneHz w' = aread melody (currentNoteIndex w) /\
  clock w' = clock w + 3300 /\
  noteStartMs w' = ulong32 (clock w' - 50).
Proof.
  intros Hlen Hall Hnone Hst Hn Ha w'. subst w'.
  destruct (melody_round_facts (currentNoteIndex w) Hn) as [F1 F2].
  destruct (melody_notes 13 ins w) as (M1 & M2 & M3 & M4 & _ & M6);
    try assumption; [rewrite F1; exact Hlen|].
  cbv zeta in *. rewrite F2 in M1.
  split; [exact M4|]. split; [exact M1|].
  split; [destruct M6 as [M6|[M6 _]]; [rewrite <- M1; exact M6|discriminate M6]|].
  split; [rewrite M2, Hlen; reflexivity|exact M3].
Qed.

Lemma melody_round_witness :
  let w := held_negY 121 in
  let w' := run ulong32 (repeat (rest_negY 0) 66) w in
  currentNoteIndex w' = currentNoteIndex w /\ clock w' = clock w + 3300.
Proof.
  intros w w'.
  destruct (melody_round (repeat (rest_negY 0) 66) w) as (_ & H1 & _ & H2 & _).
  - reflexivity.
  - apply Forall_forall. intros i Hi. apply repeat_spec in Hi. subst i.
    vm_compute. split; reflexivity.
  - vm_compute. discriminate.
  - vm_compute. reflexivity.
  - vm_compute. split; [discriminate|reflexivity].
  - vm_compute. reflexivity.
  - split; [exact H1|exact H2].
Defined.

(** *** The alarm is never early *)





(** *** The LED never blinks fast *)

Lemma blink_consistent_setup (t0 : Z) : blink_consistent (setup t0).
Proof. split; cbn; [exact I|discriminate]. Qed.

Lemma blink_consistent_loop (i : Input) (w : World) :
  0 <= lag i <= MAX_LAG ->
  blink_consistent w -> blink_consistent (loop ulong32 i w).
Proof.
  intros Hl [Hsp Han]. unfold MAX_LAG in Hl.
  open_named w.
  destruct st.
  - clear Han. cbn. split_tests; split; cbn; intros; try discriminate; exact Hsp.
  - clear Han. cbn. split_tests; tests_to_prop; split; cbn; intros;
      try discriminate; try exact Hsp.
    all: eexists; split; [reflexivity|split; [reflexivity|lia]].
  - destruct (Han eq_refl) as (toggled & Hlast & -> & Hfresh). clear Han.
    destruct lvl; cbn; split_tests; tests_to_prop; unfold_constants;
      true_elapsed; split; cbn; intros; try discriminate; try exact Hsp;
      try (split; [|exact Hsp]);
      try (eexists; split; [first [reflexivity|exact Hlast]
                           |first [unfold ALARM_TOGGLE_MS; lia
                                  |split; [reflexivity|lia]]]).
Qed.

Lemma blink_consistent_run (ins : list Input) :
  forall w : World,
    Forall (fun i => 0 <= lag i <= MAX_LAG) ins ->
    blink_consistent w -> blink_consistent (run ulong32 ins w).
Proof.
  induction ins as [|i ins IH]; intros w Hall Hb; [exact Hb|].
  inversion Hall as [|? ? Hl Hrest]; subst.
  cbn [run]. apply IH; [exact Hrest|].
  apply blink_consistent_loop; assumption.
Qed.

(** X17. The LED never blinks fast: in any run from [setup], whatever the
    inputs and the time between the iterations, every write of the LED
    pin to high comes at least 1000 ms after the previous write to that
    pin, and that previous write was to low. *)
Theorem led_never_fast (t0 : Z) (ins : list Input) :
  Forall (fun i => 0 <= lag i <= MAX_LAG) ins ->
  led_spaced (trace (run ulong32 ins (setup t0))).
Proof.
  intros Hall.
  apply (bc_spaced _ (blink_consistent_run ins (setup t0) Hall
                        (blink_consistent_setup t0))).
Qed.

Lemma led_never_fast_witness :
  led_spaced (trace (run ulong32 (repeat (rest_negY 20) 130) (setup 0))).
Proof.
  apply (led_never_fast 0 (repeat (rest_negY 20) 130)).
  apply Forall_forall. intros i Hi. apply repeat_spec in Hi. subst i.
  vm_compute. split; discriminate.
Defined.

(** *** Turning the device to another face *)

(** With another face in view and iterations 50 ms apart, an open window
    stays open as long as it is less than 500 ms old. *)
Lemma window_quiet (ins : list Input) :
  forall (w : World) (opened : Z),
    Forall (fun i => differs (activeFace w) i /\ lag i = 0) ins ->
    currentState w <> STATE_MENU ->
    axisChangePending w = true ->
    axisChangeStartMs w = ulong32 opened ->
    0 <= clock w - opened ->
    clock w - opened + 50 * Z.of_nat (length ins) <= 500 ->
    let w' := run ulong32 ins w in
    currentState w' <> STATE_MENU /\
    activeFace w' = activeFace w /\
    axisChangePending w' = true /\
    axisChangeStartMs w' = axisChangeStartMs w /\
    clock w' = clock w + 50 * Z.of_nat (length ins).
Proof.
  induction ins as [|i ins IH]; intros w opened Hall Hst Hp Ha H0 Hlen.
  - cbn. repeat split; try reflexivity; try assumption; lia.
  - inversion Hall as [|? ? [Hd Hl] Hrest]; subst.
    cbn [length] in Hlen. rewrite Nat2Z.inj_succ in Hlen.
    destruct (loop_keeps_window i w Hst Hp Hd) as (S1 & S2 & S3 & S4 & S5).
    { rewrite Hl, Z.add_0_r, Ha, ulong32_elapsed by lia.
      unfold AXIS_CHANGE_BUFFER_MS. lia. }
    rewrite Hl, Z.add_0_r in S5.
    destruct (IH (loop ulong32 i w) opened) as (I1 & I2 & I3 & I4 & I5).
    + rewrite S2. exact Hrest.
    + exact S1.
    + exact S3.
    + rewrite S4. exact Ha.
    + rewrite S5. lia.
    + rewrite S5. lia.
    + cbn [run length]. rewrite Nat2Z.inj_succ.
      rewrite I2, I3, I4, I5, S2, S4, S5.
      repeat split; try reflexivity; try assumption; lia.
Qed.

(** X18. Turning the device to another trigger face restarts the timer:
    in the countdown or the alarm with no window open, when another
    trigger face [g] is held with iterations exactly 50 ms apart, the
    eleventh iteration, 500 ms after the first, returns to the menu and the
    twelfth starts the countdown of [g], 550 ms after the first iteration
    began. *)
Theorem reorientation_restarts
        (g : Face) (i1 : Input) (mid : list Input) (i11 i12 : Input) (w : World) :
  currentState w <> STATE_MENU ->
  axisChangePending w = false ->
  g <> FACE_NONE ->
  g <> activeFace w ->
  length mid = 9%nat ->
  Forall (steady g) (i1 :: mid ++ [i11; i12]) ->
  currentState (run ulong32 (i1 :: mid ++ [i11]) w) = STATE_MENU /\
  let w' := run ulong32 (i1 :: mid ++ [i11; i12]) w in
  currentState w' = STATE_COUNTDOWN /\
  activeFace w' = g /\
  countdownRemainingSec w' = faceDuration g /\
  clock w' = clock w + 550.
Proof.
  intros Hst Hp Hg Hgf Hlen Hall.
  inversion Hall as [|? ? [Hf1 Hl1] Hrest]; subst.
  apply Forall_app in Hrest. destruct Hrest as [Hmid Hlast].
  inversion Hlast as [|? ? [Hf11 Hl11] Hlast']; subst.
  inversion Hlast' as [|? ? [Hf12 Hl12] _]; subst.
  set (g := detectFace (accX i1) (accY i1) (accZ i1)) in *.
  assert (Hd1 : differs (activeFace w) i1) by exact Hgf.
  destruct (loop_opens_window i1 w Hst Hp Hd1) as (O1 & O2 & O3 & O4 & O5).
  rewrite Hl1, Z.add_0_r in O4, O5.
  set (w1 := loop ulong32 i1 w) in *.
  destruct (window_quiet mid w1 (clock w)) as (Q1 & Q2 & Q3 & Q4 & Q5);
    try assumption; try lia.
  { rewrite O2. apply Forall_forall. intros i Hi.
    rewrite Forall_forall in Hmid. destruct (Hmid i Hi) as [Hfi Hli].
    split; [|exact Hli]. unfold differs. rewrite Hfi. exact Hgf. }
  rewrite Hlen in Q5.
  set (w10 := run ulong32 mid w1) in *.
  assert (Hd11 : differs (activeFace w10) i11).
  { unfold differs. rewrite Q2, O2, Hf11. exact Hgf. }
  assert (Hclose : loop ulong32 i11 w10 = goToMenu (delay (lag i11) w10)).
  { apply loop_closes_window; try assumption.
    rewrite Hl11, Z.add_0_r, Q4, O4, ulong32_elapsed by lia.
    unfold AXIS_CHANGE_BUFFER_MS. lia. }
  assert (Hrun11 : run ulong32 (i1 :: mid ++ [i11]) w = goToMenu (delay (lag i11) w10)).
  { cbn [run]. fold w1. rewrite run_app. fold w10. cbn [run]. exact Hclose. }
  destruct (goToMenu_effect (delay (lag i11) w10)) as (G1 & _).
  split; [rewrite Hrun11; exact G1|].
  replace (i1 :: mid ++ [i11; i12]) with ((i1 :: mid ++ [i11]) ++ [i12])
    by (cbn; rewrite <- app_assoc; reflexivity).
  cbv zeta. rewrite run_app, Hrun11. cbn [run].
  set (w11 := goToMenu (delay (lag i11) w10)) in *.
  assert (Hne12 : detectFace (accX i12) (accY i12) (accZ i12) <> FACE_NONE)
    by (rewrite Hf12; exact Hg).
  destruct (menu_start i12 w11 G1 Hne12) as (M1 & M2 & M3 & _ & M5).
  rewrite M2 in M3. rewrite Hf12 in M2, M3.
  split; [exact M1|]. split; [exact M2|]. split; [exact M3|].
  rewrite M5, Hl12.
  assert (Hc11 : clock w11 = clock w10 + lag i11) by (destruct w10; reflexivity).
  rewrite Hc11, Hl11, Q5, O5. lia.
Qed.

Lemma reorientation_restarts_witness :
  let w := held_negY 30 in
  let w' := run ulong32 (repeat (rest_posX 0) 12) w in
  currentState w' = STATE_COUNTDOWN /\ countdownRemainingSec w' = 30.
Proof.
  intros w w'.
  destruct (reorientation_restarts FACE_POS_X (rest_posX 0)
              (repeat (rest_posX 0) 9) (rest_posX 0) (rest_posX 0) w)
    as (_ & H1 & _ & H2 & _).
  - vm_compute. discriminate.
  - vm_compute. reflexivity.
  - discriminate.
  - vm_compute. discriminate.
  - reflexivity.
  - repeat constructor; vm_compute; reflexivity.
  - split; [exact H1|exact H2].
Defined.
